(** * DeepReg data loaders: a shallow embedding of
      [deepreg/dataset/loader/interface.py] and its specification.

    Conventions of the embedding.
    - A numpy array is a record of its shape and its elements in row-major
      order.  Elements are IEEE 754 binary64 values in the representation
      of the Standard Library's [SpecFloat] (signed zeros, infinities, one
      NaN, finite numbers), with its division and comparisons.  The
      [indices] vector of a sample is a binary32 array.
    - A Python exception is a value of [exn]; code that may raise returns a
      [result].  A generator is the list of the records it yields together
      with the exception that ended it, if any.
    - A sample (a Python [dict] with string keys) is a [gmap string value].
    - A [tf.data] dataset is the function giving, for every [n], the first
      [n] elements of one traversal. *)

From Stdlib Require Import ZArith Lia SpecFloat.
From stdpp Require Import base option list strings gmap.

Local Open Scope nat_scope.

(** ** Exceptions and results *)

Inductive value_error : Type :=
  | ImagesNone
  | LabelsNotBoth
  | ZeroSizeReduction
  | OutOfRange (name : string)
  | ImageDimension (name : string) (shp : list nat)
  | LabelDimension (name : string) (shp : list nat)
  | NumLabelsDiffer (moving fixed : nat)
  | ShapeLength
  | EmptyGroups (ids : list Z)
  | MinEmptySequence
  | EmptyRange
  | UnknownPolicy
  | NegativeDimension.

Inductive exn : Type :=
  | ValueError (why : value_error)
  | AssertionError
  | NotImplementedError
  | TypeError
  | KeyError
  | IndexError
  | AttributeError
  | UnboundLocalError
  | OverflowError
  | InvalidArgumentError.

Inductive result (A : Type) : Type :=
  | Ok (a : A)
  | Raise (e : exn).

Arguments Ok {A} a.
Arguments Raise {A} e.

Definition bind {A B : Type} (r : result A) (k : A -> result B) : result B :=
  match r with
  | Ok a => k a
  | Raise e => Raise e
  end.

Notation "'let*' x ':=' r 'in' k" := (bind r (fun x => k))
  (at level 10, x name, r at level 100, k at level 200).
Notation "'check' r 'in' k" := (bind r (fun _ => k))
  (at level 10, r at level 100, k at level 200).

(** [for arg in args: body(arg)] where the body only checks. *)
Fixpoint for_each {A : Type} (body : A -> result unit) (args : list A)
  : result unit :=
  match args with
  | [] => Ok tt
  | a :: rest => check body a in for_each body rest
  end.

Definition is_value_error {A : Type} (r : result A) : Prop :=
  exists why, r = Raise (ValueError why).

Definition returns {A : Type} (r : result A) : Prop :=
  exists a, r = Ok a.

(** ** numpy arrays *)

(** *** Floating-point numbers *)

(** The double nearest to an integer (ties to even): Python's [float(z)]
    where it is defined, and the value of integer literals such as [0],
    [1] and [255.0] in comparisons and divisions with doubles. *)
Definition float_of_Z (z : Z) : spec_float := binary_normalize 53 1024 z 0 false.

Definition f_zero : spec_float := float_of_Z 0.
Definition f_one : spec_float := float_of_Z 1.
Definition f_255 : spec_float := float_of_Z 255.

(** From the first integer that rounds beyond the largest double on,
    Python's conversion of an integer to a float raises [OverflowError]. *)
Definition float_overflow : Z := (2 ^ 1024 - 2 ^ 970)%Z.

Definition fits_float (z : Z) : bool := (Z.abs z <? float_overflow)%Z.

(** The cast of a double to binary32 (ties to even, infinite beyond the
    range). *)
Definition single_of_double (x : spec_float) : spec_float :=
  match x with
  | S754_finite s m e =>
      binary_normalize 24 128 (if s then Z.neg m else Z.pos m) e s
  | _ => x
  end.

Definition to_float32 (z : Z) : spec_float := single_of_double (float_of_Z z).

(** [np.asarray(l, dtype=np.float32)] on a list of Python integers: each
    integer is converted to a double, which raises [OverflowError] for the
    integers that do not fit, and the double is cast to binary32. *)
Definition asarray_float32 (l : list Z) : result (list spec_float) :=
  if forallb fits_float l then Ok (map to_float32 l) else Raise OverflowError.

(** [x < y] on doubles: false as soon as one side is NaN. *)
Definition float_lt (x y : spec_float) : bool := SFltb x y.

(** [np.minimum] and [np.maximum] on two values: NaN as soon as one of
    them is NaN. *)
Definition np_minimum (a b : spec_float) : spec_float :=
  match SFcompare a b with
  | None => S754_nan
  | Some Gt => b
  | Some _ => a
  end.

Definition np_maximum (a b : spec_float) : spec_float :=
  match SFcompare a b with
  | None => S754_nan
  | Some Lt => b
  | Some _ => a
  end.

(** *** Arrays *)

Record ndarray : Type := mk_ndarray { shape : list nat; data : list spec_float }.

Definition ndim (a : ndarray) : nat := length (shape a).

Definition size_of (shp : list nat) : nat := foldr Nat.mul 1 shp.

(** The arrays numpy can build: as many elements as the shape announces. *)
Definition well_formed (a : ndarray) : Prop :=
  length (data a) = size_of (shape a).

(** [np.min(arr)] and [np.max(arr)]: a reduction without identity, which
    raises [ValueError] on an array with no element, and which is NaN as
    soon as the array holds a NaN. *)
Definition np_min (a : ndarray) : result spec_float :=
  match data a with
  | [] => Raise (ValueError ZeroSizeReduction)
  | x :: xs => Ok (fold_left np_minimum xs x)
  end.

Definition np_max (a : ndarray) : result spec_float :=
  match data a with
  | [] => Raise (ValueError ZeroSizeReduction)
  | x :: xs => Ok (fold_left np_maximum xs x)
  end.

(** [arr / 255.0]: each element divided by the double 255, rounded to
    nearest.  The arrays of the backends are taken to hold doubles (an
    integer array is converted exactly before the division). *)
Definition div255 (a : ndarray) : ndarray :=
  {| shape := shape a;
     data := map (fun x => SFdiv 53 1024 x f_255) (data a) |}.

(** Every [step]-th element of [l], starting at offset [k]: the elements a
    row-major array keeps under [arr[..., k]] when its last axis has
    [step] entries. *)
Fixpoint strided (step k : nat) (l : list spec_float) (rows : nat)
  : list spec_float :=
  match rows with
  | O => []
  | S rows' =>
      match drop k l with
      | [] => []
      | x :: _ => x :: strided step k (drop step l) rows'
      end
  end.

(** [arr[..., k]] for a non-negative [k]. *)
Definition index_last (a : ndarray) (k : nat) : result ndarray :=
  match last (shape a) with
  | None => Raise IndexError
  | Some n =>
      if k <? n then
        let shp := removelast (shape a) in
        Ok {| shape := shp; data := strided n k (data a) (size_of shp) |}
      else Raise IndexError
  end.

(** The slice [a[..., k]] where it exists. *)
Definition slice_or_self (a : ndarray) (k : nat) : ndarray :=
  match index_last a k with
  | Ok s => s
  | Raise _ => a
  end.

(** ** Samples *)

(** The values a sample dictionary holds. *)
Inductive value : Type :=
  | VNone
  | VArray (a : ndarray)
  | VIndices (l : list spec_float).

Definition to_value (a : option ndarray) : value :=
  match a with
  | None => VNone
  | Some a' => VArray a'
  end.

Abbreviation sample := (gmap string value).

(** ** Generators *)

(** The records yielded, in order, and the exception that stopped the
    generator (if one did). *)
Definition generator (A : Type) : Type := (list A * option exn)%type.

Definition yielded {A : Type} (g : generator A) : list A := fst g.
Definition raised {A : Type} (g : generator A) : option exn := snd g.

(** [for x in xs: yield body(x)] *)
Fixpoint yield_each {A B : Type} (body : A -> result B) (xs : list A)
  : generator B :=
  match xs with
  | [] => ([], None)
  | x :: rest =>
      match body x with
      | Raise e => ([], Some e)
      | Ok b => let g := yield_each body rest in (b :: fst g, snd g)
      end
  end.

(** ** GeneratorDataLoader.validate_images_and_labels *)

Inductive warning : Type :=
  | MovingShapesDiffer (image label : list nat)
  | FixedShapesDiffer (image label : list nat).

Definition is_none {A : Type} (o : option A) : bool :=
  match o with
  | None => true
  | Some _ => false
  end.

Definition check_range (entry : option ndarray * string) : result unit :=
  match entry.1 with
  | None => Ok tt
  | Some arr =>
      let* lo := np_min arr in
      if float_lt lo f_zero then Raise (ValueError (OutOfRange entry.2))
      else
        let* hi := np_max arr in
        if float_lt f_one hi then Raise (ValueError (OutOfRange entry.2))
        else Ok tt
  end.

Definition check_image_dim (entry : ndarray * string) : result unit :=
  if negb (ndim entry.1 =? 3)
  then Raise (ValueError (ImageDimension entry.2 (shape entry.1)))
  else Ok tt.

Definition check_label_dim (entry : option ndarray * string) : result unit :=
  match entry.1 with
  | None => Raise AttributeError
  | Some arr =>
      if negb ((ndim arr =? 3) || (ndim arr =? 4))
      then Raise (ValueError (LabelDimension entry.2 (shape arr)))
      else Ok tt
  end.

(** [1 if len(label.shape) == 3 else label.shape[-1]] *)
Definition num_labels_of (label : ndarray) : nat :=
  if ndim label =? 3 then 1 else default 0 (last (shape label)).

Definition shape_warnings (moving_image fixed_image moving_label fixed_label : ndarray)
  : list warning :=
  (if bool_decide (take 3 (shape moving_image) = take 3 (shape moving_label))
   then []
   else [MovingShapesDiffer (shape moving_image) (shape moving_label)])
  ++
  (if bool_decide (take 3 (shape fixed_image) = take 3 (shape fixed_label))
   then []
   else [FixedShapesDiffer (shape fixed_image) (shape fixed_label)]).

(** On success the result is the list of warnings that were logged. *)
Definition validate_images_and_labels
    (moving_image fixed_image moving_label fixed_label : option ndarray)
    (image_indices : list Z) : result (list warning) :=
  match moving_image, fixed_image with
  | Some mi, Some fi =>
      if negb (eqb (is_none moving_label) (is_none fixed_label))
      then Raise (ValueError LabelsNotBoth)
      else
        check for_each check_range
                [(moving_image, "moving_image"); (fixed_image, "fixed_image");
                 (moving_label, "moving_label"); (fixed_label, "fixed_label")] in
        check for_each check_image_dim
                [(mi, "moving_image"); (fi, "fixed_image")] in
        match moving_label with
        | None => Ok []
        | Some ml =>
            check for_each check_label_dim
                    [(moving_label, "moving_label");
                     (fixed_label, "fixed_label")] in
            match fixed_label with
            | None => Raise AttributeError
            | Some fl =>
                let num_labels_moving := num_labels_of ml in
                let num_labels_fixed := num_labels_of fl in
                if negb (num_labels_moving =? num_labels_fixed)
                then Raise (ValueError
                              (NumLabelsDiffer num_labels_moving num_labels_fixed))
                else Ok (shape_warnings mi fi ml fl)
            end
        end
  | _, _ => Raise (ValueError ImagesNone)
  end.

(** ** GeneratorDataLoader.sample_image_label *)

(** The label-sampling policy a loader is configured with. *)
Inductive label_policy : Type :=
  | SampleAll
  | SampleOne
  | SampleChannel (k : nat).

(** Modelled from the spec: [get_label_indices] of [deepreg.dataset.util]
    is imported by the loader module but is not among the sources.  The
    specification gives its three policies: "all" selects every channel in
    order, "sample" selects one random channel per call, and the third
    selects a single fixed channel index.  [draw] is the number the random
    generator delivers for this call.  A loader without a policy
    ([sample_label = None]) is outside what the specification describes; it
    is rejected here like an unknown policy. *)
Definition get_label_indices (num_labels : nat)
    (sample_label : option label_policy) (draw : nat) : result (list nat) :=
  match sample_label with
  | Some SampleAll => Ok (seq 0 num_labels)
  | Some SampleOne =>
      if num_labels =? 0 then Raise (ValueError EmptyRange)
      else Ok [draw mod num_labels]
  | Some (SampleChannel k) => Ok [k]
  | None => Raise (ValueError UnknownPolicy)
  end.

(** The binary32 vector of [image_indices + [label_index]]. *)
Definition float32_indices (image_indices : list Z) (label_index : Z) : value :=
  VIndices (map to_float32 (image_indices ++ [label_index])).

(** [np.asarray(image_indices + [label_index], dtype=np.float32)] *)
Definition indices_of (image_indices : list Z) (label_index : Z)
  : result value :=
  let* v := asarray_float32 (image_indices ++ [label_index]) in
  Ok (VIndices v).

Definition unlabeled_sample (moving_image fixed_image : option ndarray)
    (indices : value) : sample :=
  {[ "moving_image" := to_value moving_image;
     "fixed_image" := to_value fixed_image;
     "indices" := indices ]}.

Definition labeled_sample (moving_image fixed_image : option ndarray)
    (indices : value) (moving_label fixed_label : value) : sample :=
  {[ "moving_image" := to_value moving_image;
     "fixed_image" := to_value fixed_image;
     "indices" := indices;
     "moving_label" := moving_label;
     "fixed_label" := fixed_label ]}.

(** [label[..., label_index]] on a label that may be [None]. *)
Definition channel (label : option ndarray) (label_index : nat) : result ndarray :=
  match label with
  | None => Raise TypeError
  | Some arr => index_last arr label_index
  end.

Definition sample_image_label (sample_label : option label_policy) (draw : nat)
    (moving_image fixed_image moving_label fixed_label : option ndarray)
    (image_indices : list Z) : generator sample :=
  match validate_images_and_labels moving_image fixed_image
          moving_label fixed_label image_indices with
  | Raise e => ([], Some e)
  | Ok _ =>
      match moving_label with
      | None =>
          let label_index := (-1)%Z in
          match indices_of image_indices label_index with
          | Raise e => ([], Some e)
          | Ok indices =>
              ([unlabeled_sample moving_image fixed_image indices], None)
          end
      | Some ml =>
          if ndim ml =? 4 then
            match
              (let* n := match shape ml !! 3 with
                         | Some n => Ok n
                         | None => Raise IndexError
                         end in
               get_label_indices n sample_label draw)
            with
            | Raise e => ([], Some e)
            | Ok label_indices =>
                yield_each
                  (fun label_index =>
                     let* indices :=
                       indices_of image_indices (Z.of_nat label_index) in
                     let* m := index_last ml label_index in
                     let* f := channel fixed_label label_index in
                     Ok (labeled_sample moving_image fixed_image indices
                           (VArray m) (VArray f)))
                  label_indices
            end
          else
            let label_index := 0%Z in
            match indices_of image_indices label_index with
            | Raise e => ([], Some e)
            | Ok indices =>
                ([labeled_sample moving_image fixed_image indices
                    (to_value moving_label) (to_value fixed_label)], None)
            end
      end
  end.

(** An array has a value below 0 or above 1. *)
Definition out_of_range (a : ndarray) : Prop :=
  Exists (fun x => float_lt x f_zero = true \/ float_lt f_one x = true)
    (data a).

(** An array holds a NaN. *)
Definition has_nan (a : ndarray) : Prop := S754_nan ∈ data a.

(** What makes the range check of an array fail: a value below 0 or above
    1 in an array without NaN. *)
Definition fails_range_check (a : ndarray) : Prop :=
  ~ has_nan a /\ out_of_range a.

(** The integers of a list all convert to a float. *)
Definition convertible (l : list Z) : Prop := forallb fits_float l = true.

Definition zero_size (a : ndarray) : Prop := data a = [].

(** ** FileLoader *)

(** What [get_data] is asked for: an integer, or a (group, sample) pair
    for grouped data. *)
Inductive index : Type :=
  | Index (i : Z)
  | GroupIndex (g s : Z).

(** A file-format backend.  [group_ids] and [group_sample_dict] are [None]
    until [set_group_structure] fills them; [get_data] is what the concrete
    backend implements. *)
Record FileLoader : Type := mk_FileLoader {
  grouped : bool;
  group_ids : option (list Z);
  group_sample_dict : option (gmap Z (list Z));
  get_data : index -> result ndarray
}.

(** [[body(x) for x in xs]] *)
Fixpoint comprehension {A B : Type} (body : A -> result B) (xs : list A)
  : result (list B) :=
  match xs with
  | [] => Ok []
  | x :: rest =>
      let* y := body x in
      let* ys := comprehension body rest in
      Ok (y :: ys)
  end.

(** [[x for x in xs if cond(x)]] *)
Fixpoint comprehension_if {A : Type} (cond : A -> result bool) (xs : list A)
  : result (list A) :=
  match xs with
  | [] => Ok []
  | x :: rest =>
      let* keep := cond x in
      let* ys := comprehension_if cond rest in
      Ok (if keep then x :: ys else ys)
  end.

(** [len(self.group_sample_dict[g])] *)
Definition group_len (self : FileLoader) (g : Z) : result nat :=
  match group_sample_dict self with
  | None => Raise TypeError
  | Some d =>
      match d !! g with
      | None => Raise KeyError
      | Some samples => Ok (length samples)
      end
  end.

(** Python's [min] on a list of naturals. *)
Definition py_min (l : list nat) : result nat :=
  match l with
  | [] => Raise (ValueError MinEmptySequence)
  | x :: xs => Ok (foldl Nat.min x xs)
  end.

Definition iterate_group_ids (self : FileLoader) : result (list Z) :=
  match group_ids self with
  | None => Raise TypeError
  | Some ids => Ok ids
  end.

Definition get_num_groups (self : FileLoader) : result nat :=
  if negb (grouped self) then Raise AssertionError
  else
    match group_ids self with
    | None => Raise TypeError
    | Some ids => Ok (length ids)
    end.

Definition get_num_images_per_group (self : FileLoader) : result (list nat) :=
  if negb (grouped self) then Raise AssertionError
  else
    let* ids := iterate_group_ids self in
    let* num_images_per_group := comprehension (group_len self) ids in
    let* smallest := py_min num_images_per_group in
    if smallest =? 0 then
      let* ids' := iterate_group_ids self in
      let* empty_ids :=
        comprehension_if
          (fun g => let* n := group_len self g in Ok (n =? 0)) ids' in
      Raise (ValueError (EmptyGroups empty_ids))
    else Ok num_images_per_group.

(** ** GeneratorDataLoader *)

(** State set by [DataLoader.__init__]. *)
Record DataLoader : Type := mk_DataLoader {
  labeled : option bool;
  num_indices : option Z;
  sample_label : option label_policy;
  seed : option Z
}.

(** Truth value of [self.labeled] in [if self.labeled]. *)
Definition truthy (b : option bool) : bool := default false b.

Definition index_tuple : Type := (index * index * list Z)%type.

(** A loader that produces its samples with a generator.  The four
    backends are [None] until a concrete loader assigns them;
    [sample_index_generator] is what the concrete loader yields;
    [draws n] is the random number available to the [n]-th call of
    [sample_image_label]. *)
Record GeneratorDataLoader : Type := mk_GeneratorDataLoader {
  base : DataLoader;
  loader_moving_image : option FileLoader;
  loader_fixed_image : option FileLoader;
  loader_moving_label : option FileLoader;
  loader_fixed_label : option FileLoader;
  sample_index_generator : generator index_tuple;
  draws : nat -> nat
}.

(** [loader.get_data(index=i)] on a backend attribute that may be [None]. *)
Definition fetch (loader : option FileLoader) (i : index) : result ndarray :=
  match loader with
  | None => Raise AttributeError
  | Some l => get_data l i
  end.

(** [for x in src: for s in inner(x): yield s] where [src] is itself a
    generator; [inner] also receives the position of [x]. *)
Fixpoint for_yield_from_at {A B : Type} (inner : nat -> A -> generator B)
    (pos : nat) (xs : list A) (tail_exn : option exn) : generator B :=
  match xs with
  | [] => ([], tail_exn)
  | x :: rest =>
      match inner pos x with
      | (ys, Some e) => (ys, Some e)
      | (ys, None) =>
          let g := for_yield_from_at inner (S pos) rest tail_exn in
          (ys ++ fst g, snd g)
      end
  end.

(** What the body of the loop in [data_generator] passes on to
    [sample_image_label] for one index tuple. *)
Definition load_tuple (self : GeneratorDataLoader) (t : index_tuple)
  : result (ndarray * ndarray * option ndarray * option ndarray) :=
  let '(moving_index, fixed_index, image_indices) := t in
  let* moving_image := fetch (loader_moving_image self) moving_index in
  let moving_image := div255 moving_image in
  let* fixed_image := fetch (loader_fixed_image self) fixed_index in
  let fixed_image := div255 fixed_image in
  let* moving_label :=
    if truthy (labeled (base self))
    then let* l := fetch (loader_moving_label self) moving_index in Ok (Some l)
    else Ok None in
  let* fixed_label :=
    if truthy (labeled (base self))
    then let* l := fetch (loader_fixed_label self) fixed_index in Ok (Some l)
    else Ok None in
  Ok (moving_image, fixed_image, moving_label, fixed_label).

Definition data_generator_body (self : GeneratorDataLoader) (pos : nat)
    (t : index_tuple) : generator sample :=
  match load_tuple self t with
  | Raise e => ([], Some e)
  | Ok (moving_image, fixed_image, moving_label, fixed_label) =>
      sample_image_label (sample_label (base self)) (draws self pos)
        (Some moving_image) (Some fixed_image) moving_label fixed_label t.2
  end.

(** What a backend delivers for an index, when it delivers something. *)
Definition fetched (loader : option FileLoader) (i : index) : ndarray :=
  match fetch loader i with
  | Ok a => a
  | Raise _ => {| shape := []; data := [] |}
  end.

Definition data_generator (self : GeneratorDataLoader) : generator sample :=
  for_yield_from_at (data_generator_body self) 0
    (yielded (sample_index_generator self))
    (raised (sample_index_generator self)).

(** ** tf.data datasets *)

(** [d epoch n] is the list of the first [n] elements of the traversal
    number [epoch] of the dataset (all of them when the traversal has fewer
    than [n]).  Traversals may differ from one another only through
    shuffling. *)
Definition Dataset (A : Type) : Type := nat -> nat -> list A.

(** A dataset with the same finite content at every traversal. *)
Definition from_list {A : Type} (l : list A) : Dataset A :=
  fun _ n => take n l.

(** [dataset.map(f)] *)
Definition ds_map {A B : Type} (f : A -> B) (d : Dataset A) : Dataset B :=
  fun epoch n => map f (d epoch n).

(** The shuffle buffer: [buf] holds the buffered elements, [rest] the
    input not read yet.  Each step emits the buffered element at a random
    position and refills that position from the input. *)
Fixpoint shuffle_go {A : Type} (rng : nat -> nat) (step : nat)
    (buf rest : list A) (fuel : nat) : list A :=
  match fuel with
  | O => []
  | S fuel' =>
      let i := rng step mod length buf in
      match buf !! i with
      | None => []
      | Some x =>
          match rest with
          | [] => x :: shuffle_go rng (S step) (delete i buf) [] fuel'
          | y :: rest' =>
              x :: shuffle_go rng (S step) (<[i := y]> buf) rest' fuel'
          end
      end
  end.

Definition shuffle_list {A : Type} (rng : nat -> nat) (buffer_size : nat)
    (l : list A) : list A :=
  shuffle_go rng 0 (take buffer_size l) (drop buffer_size l) (length l).

(** [dataset.shuffle(buffer_size, reshuffle_each_iteration=True)]; the
    random numbers depend on the traversal.  The first [n] outputs are
    determined by the first [n + buffer_size] inputs. *)
Definition ds_shuffle {A : Type} (rng : nat -> nat -> nat) (buffer_size : Z)
    (d : Dataset A) : result (Dataset A) :=
  if (buffer_size <=? 0)%Z then Raise InvalidArgumentError
  else
    let b := Z.to_nat buffer_size in
    Ok (fun epoch n => take n (shuffle_list (rng epoch) b (d epoch (n + b)))).

(** Successive traversals of [d], one after the other, until one of them
    is empty. *)
Fixpoint repeat_go {A : Type} (d : Dataset A) (epoch n fuel : nat) : list A :=
  match fuel with
  | O => []
  | S fuel' =>
      match d epoch n with
      | [] => []
      | xs => xs ++ repeat_go d (S epoch) n fuel'
      end
  end.

(** [dataset.repeat()] *)
Definition ds_repeat {A : Type} (d : Dataset A) : Dataset A :=
  fun _ n => take n (repeat_go d 0 n n).

(** Consecutive groups of [size] elements; what is left at the end forms
    a smaller group unless [drop_remainder]. *)
Fixpoint chunks {A : Type} (size : nat) (drop_remainder : bool)
    (l : list A) (fuel : nat) : list (list A) :=
  match fuel with
  | O => []
  | S fuel' =>
      match l with
      | [] => []
      | _ =>
          if length l <? size
          then (if drop_remainder then [] else [l])
          else take size l :: chunks size drop_remainder (drop size l) fuel'
      end
  end.

(** [dataset.batch(batch_size, drop_remainder)]; a batch is the list of
    the elements stacked in it.  With [drop_remainder] the static shape of
    a batch is built first, and a negative batch dimension is refused with
    a Python [ValueError]; otherwise a size that is not positive is
    refused by the batch operation itself. *)
Definition ds_batch {A : Type} (batch_size : Z) (drop_remainder : bool)
    (d : Dataset A) : result (Dataset (list A)) :=
  if (batch_size <=? 0)%Z then
    if drop_remainder && (batch_size <? 0)%Z
    then Raise (ValueError NegativeDimension)
    else Raise InvalidArgumentError
  else
    let b := Z.to_nat batch_size in
    Ok (fun epoch n =>
          let xs := d epoch (n * b) in
          take n (chunks b drop_remainder xs (length xs))).

(** [dataset.prefetch(...)] changes when elements are computed, not which. *)
Definition ds_prefetch {A : Type} (d : Dataset A) : Dataset A := d.

(** [d1.concatenate(d2)] *)
Definition ds_concatenate {A : Type} (d1 d2 : Dataset A) : Dataset A :=
  fun epoch n =>
    let xs := d1 epoch n in
    xs ++ d2 epoch (n - length xs).

(** ** The loader interface *)

(** The members [DataLoader] declares and its subclasses override.
    [num_samples] may return Python's [None] (a loader whose count was not
    set yet).  [close] returns the loader as the call leaves it. *)
Class DataLoaderInterface (L : Type) : Type := {
  moving_image_shape : L -> result (list Z);
  fixed_image_shape : L -> result (list Z);
  num_samples : L -> result (option Z);
  get_dataset : L -> result (Dataset sample);
  close : L -> result L
}.

Definition DataLoader_init (labeled : option bool) (num_indices : option Z)
    (sample_label : option label_policy) (seed : option Z) : DataLoader :=
  {| labeled := labeled; num_indices := num_indices;
     sample_label := sample_label; seed := seed |}.

#[export] Instance DataLoader_interface : DataLoaderInterface DataLoader := {
  moving_image_shape _ := Raise NotImplementedError;
  fixed_image_shape _ := Raise NotImplementedError;
  num_samples _ := Raise NotImplementedError;
  get_dataset _ := Raise NotImplementedError;
  close self := Ok self
}.

(** *** AbstractPairedDataLoader *)

Record AbstractPairedDataLoader : Type := mk_AbstractPairedDataLoader {
  paired_base : DataLoader;
  _moving_image_shape : list Z;
  _fixed_image_shape : list Z;
  num_images : option Z
}.

Definition AbstractPairedDataLoader_init
    (moving_image_shape fixed_image_shape : list Z)
    (labeled : option bool) (sample_label : option label_policy)
    (seed : option Z) : result AbstractPairedDataLoader :=
  let super := DataLoader_init labeled (Some 2%Z) sample_label seed in
  if negb (length moving_image_shape =? 3)
     || negb (length fixed_image_shape =? 3)
  then Raise (ValueError ShapeLength)
  else Ok {| paired_base := super;
             _moving_image_shape := moving_image_shape;
             _fixed_image_shape := fixed_image_shape;
             num_images := None |}.

#[export] Instance AbstractPairedDataLoader_interface
  : DataLoaderInterface AbstractPairedDataLoader := {
  moving_image_shape self := Ok (_moving_image_shape self);
  fixed_image_shape self := Ok (_fixed_image_shape self);
  num_samples self := Ok (num_images self);
  get_dataset _ := Raise NotImplementedError;
  close self := Ok self
}.

(** *** AbstractUnpairedDataLoader *)

Record AbstractUnpairedDataLoader : Type := mk_AbstractUnpairedDataLoader {
  unpaired_base : DataLoader;
  image_shape : list Z;
  _num_samples : option Z
}.

Definition AbstractUnpairedDataLoader_init (image_shape : list Z)
    (labeled : option bool) (sample_label : option label_policy)
    (seed : option Z) : result AbstractUnpairedDataLoader :=
  let super := DataLoader_init labeled (Some 3%Z) sample_label seed in
  if negb (length image_shape =? 3)
  then Raise (ValueError ShapeLength)
  else Ok {| unpaired_base := super;
             image_shape := image_shape;
             _num_samples := None |}.

#[export] Instance AbstractUnpairedDataLoader_interface
  : DataLoaderInterface AbstractUnpairedDataLoader := {
  moving_image_shape self := Ok (image_shape self);
  fixed_image_shape self := Ok (image_shape self);
  num_samples self := Ok (_num_samples self);
  get_dataset _ := Raise NotImplementedError;
  close self := Ok self
}.

(** *** A loader with its samples in memory *)

(** The interface is meant to be implemented outside this module.  The
    examples use the simplest implementation: a loader that stores its two
    shapes and a finite list of samples. *)
Record StoredLoader : Type := mk_StoredLoader {
  stored_moving_shape : list Z;
  stored_fixed_shape : list Z;
  stored_samples : list sample
}.

#[export] Instance StoredLoader_interface : DataLoaderInterface StoredLoader := {
  moving_image_shape self := Ok (stored_moving_shape self);
  fixed_image_shape self := Ok (stored_fixed_shape self);
  num_samples self := Ok (Some (Z.of_nat (length (stored_samples self))));
  get_dataset self := Ok (from_list (stored_samples self));
  close self := Ok self
}.

(** *** ConcatenatedDataLoader *)

Record ConcatenatedDataLoader (L : Type) : Type := mk_ConcatenatedDataLoader {
  concatenated_base : DataLoader;
  loaders : list L
}.

Arguments mk_ConcatenatedDataLoader {L} _ _.
Arguments concatenated_base {L} _.
Arguments loaders {L} _.

Definition ConcatenatedDataLoader_init {L : Type} (data_loaders : list L)
  : result (ConcatenatedDataLoader L) :=
  let super := DataLoader_init None None None None in
  if negb (0 <? length data_loaders) then Raise AssertionError
  else Ok {| concatenated_base := super; loaders := data_loaders |}.

(** Python's [sum] over values that may be [None]. *)
Fixpoint py_sum_from (acc : Z) (l : list (option Z)) : result Z :=
  match l with
  | [] => Ok acc
  | None :: _ => Raise TypeError
  | Some n :: rest => py_sum_from (acc + n)%Z rest
  end.

Definition py_sum (l : list (option Z)) : result Z := py_sum_from 0%Z l.

(** [self.loaders[0]] *)
Definition first_loader {L : Type} (self : ConcatenatedDataLoader L) : result L :=
  match loaders self with
  | [] => Raise IndexError
  | l :: _ => Ok l
  end.

(** The loop of [ConcatenatedDataLoader.get_dataset], from the second
    loader on. *)
Fixpoint concatenate_rest `{DataLoaderInterface L} (dataset : Dataset sample)
    (rest : list L) : result (Dataset sample) :=
  match rest with
  | [] => Ok dataset
  | loader :: rest' =>
      let* d := get_dataset loader in
      concatenate_rest (ds_concatenate dataset d) rest'
  end.

#[export] Instance ConcatenatedDataLoader_interface `{DataLoaderInterface L}
  : DataLoaderInterface (ConcatenatedDataLoader L) := {
  moving_image_shape self :=
    let* l := first_loader self in moving_image_shape l;
  fixed_image_shape self :=
    let* l := first_loader self in fixed_image_shape l;
  num_samples self :=
    let* counts := comprehension num_samples (loaders self) in
    let* total := py_sum counts in
    Ok (Some total);
  get_dataset self :=
    match loaders self with
    | [] => Raise UnboundLocalError
    | loader :: rest =>
        let* dataset := get_dataset loader in
        concatenate_rest dataset rest
    end;
  close self :=
    let* closed := comprehension close (loaders self) in
    Ok {| concatenated_base := concatenated_base self; loaders := closed |}
}.

(** ** DataLoader.get_dataset_and_preprocess *)

Section Preprocess.

(** The collaborators of [deepreg.dataset.preprocess] and the random
    numbers of the shuffle buffer. *)
Variable resize_inputs : sample -> list Z -> list Z -> sample.
Variable affine_transform : list Z -> list Z -> Z -> list sample -> list sample.
Variable rng : nat -> nat -> nat.

Context `{DataLoaderInterface L}.

Definition get_dataset_and_preprocess (self : L) (training : bool)
    (batch_size : Z) (repeat : bool) (shuffle_buffer_num_batch : Z)
  : result (Dataset (list sample)) :=
  let* dataset := get_dataset self in
  (* resize *)
  let* moving_image_size := moving_image_shape self in
  let* fixed_image_size := fixed_image_shape self in
  let dataset :=
    ds_map (fun x => resize_inputs x moving_image_size fixed_image_size)
      dataset in
  (* shuffle / repeat / batch / preprocess *)
  let* dataset :=
    if training && (0 <? shuffle_buffer_num_batch)%Z
    then ds_shuffle rng (batch_size * shuffle_buffer_num_batch)%Z dataset
    else Ok dataset in
  let dataset := if repeat then ds_repeat dataset else dataset in
  let* dataset := ds_batch batch_size training dataset in
  let dataset := ds_prefetch dataset in
  if training then
    let* moving_image_size := moving_image_shape self in
    let* fixed_image_size := fixed_image_shape self in
    Ok (ds_map
          (affine_transform moving_image_size fixed_image_size batch_size)
          dataset)
  else Ok dataset.

End Preprocess.

(** ** The conditions the specification lists for a validation failure *)

(** The arrays among the arguments that are not [None]. *)
Definition supplied (args : list (option ndarray)) : list ndarray :=
  omap id args.

(** Channel count of a label: 1 for a 3-D label, else the size of the
    fourth dimension. *)
Definition channel_count (label : ndarray) : nat :=
  if ndim label =? 3 then 1 else nth 3 (shape label) 0.

Definition listed_failure
    (moving_image fixed_image moving_label fixed_label : option ndarray)
  : Prop :=
  (moving_image = None \/ fixed_image = None)
  \/ is_none moving_label <> is_none fixed_label
  \/ Exists out_of_range
       (supplied [moving_image; fixed_image; moving_label; fixed_label])
  \/ Exists (fun a => ndim a <> 3) (supplied [moving_image; fixed_image])
  \/ Exists (fun a => ndim a <> 3 /\ ndim a <> 4)
       (supplied [moving_label; fixed_label])
  \/ (exists m f, moving_label = Some m /\ fixed_label = Some f /\
                  channel_count m <> channel_count f).

(** The same list with the range condition as the code decides it: the
    comparisons of [np.min] and [np.max] see no value of an array that
    holds a NaN. *)
Definition validation_failure
    (moving_image fixed_image moving_label fixed_label : option ndarray)
  : Prop :=
  (moving_image = None \/ fixed_image = None)
  \/ is_none moving_label <> is_none fixed_label
  \/ Exists fails_range_check
       (supplied [moving_image; fixed_image; moving_label; fixed_label])
  \/ Exists (fun a => ndim a <> 3) (supplied [moving_image; fixed_image])
  \/ Exists (fun a => ndim a <> 3 /\ ndim a <> 4)
       (supplied [moving_label; fixed_label])
  \/ (exists m f, moving_label = Some m /\ fixed_label = Some f /\
                  channel_count m <> channel_count f).

(** Some supplied array has no element. *)
Definition some_zero_size
    (moving_image fixed_image moving_label fixed_label : option ndarray)
  : Prop :=
  Exists zero_size
    (supplied [moving_image; fixed_image; moving_label; fixed_label]).

(** ** Arrays used in examples *)

Definition black_voxel : ndarray := {| shape := [1; 1; 1]; data := [f_zero] |}.
Definition white_voxel : ndarray := {| shape := [1; 1; 1]; data := [f_one] |}.

(** An image of two voxels, one NaN and one of value 2. *)
Definition nan_volume : ndarray :=
  {| shape := [1; 1; 2]; data := [S754_nan; float_of_Z 2] |}.

(** A label with two channels over one voxel, one with a single channel,
    one whose value is not a probability, and a 3-D label of depth 2. *)
Definition two_channel_label : ndarray :=
  {| shape := [1; 1; 1; 2]; data := [f_zero; f_one] |}.
Definition one_channel_label : ndarray :=
  {| shape := [1; 1; 1; 1]; data := [f_one] |}.
Definition deep_label : ndarray :=
  {| shape := [1; 1; 2]; data := [f_one; f_zero] |}.

(** What [data_generator] hands to [sample_image_label] as labels for the
    index tuple [t]: the data of the label backends when the loader is
    labeled, [None] twice otherwise. *)
Definition labels_as_configured (self : GeneratorDataLoader) (t : index_tuple)
    (moving_label fixed_label : option ndarray) : Prop :=
  if truthy (labeled (base self)) then
    exists lm lf,
      fetch (loader_moving_label self) t.1.1 = Ok lm
      /\ fetch (loader_fixed_label self) t.1.2 = Ok lf
      /\ moving_label = Some lm /\ fixed_label = Some lf
  else moving_label = None /\ fixed_label = None.

(** Loaders and backends used in examples. *)
Definition unpaired_of_size (n : Z) : AbstractUnpairedDataLoader :=
  {| unpaired_base := DataLoader_init (Some true) (Some 3%Z) (Some SampleAll) None;
     image_shape := [4%Z; 4%Z; 4%Z];
     _num_samples := Some n |}.

Definition no_data (i : index) : result ndarray := Raise NotImplementedError.

Definition grouped_backend (ids : list Z) (d : gmap Z (list Z)) : FileLoader :=
  {| grouped := true; group_ids := Some ids; group_sample_dict := Some d;
     get_data := no_data |}.

Definition groups_with_empty : gmap Z (list Z) :=
  {[ 1%Z := [10%Z; 11%Z]; 2%Z := [] ]}.

(** ** Calls on a loader *)

(** The members of the interface a client can call on a loader once it is
    constructed, and the loader each call leaves behind (also when the call
    raises). *)
Inductive loader_call : Type :=
  | CallMovingImageShape
  | CallFixedImageShape
  | CallNumSamples
  | CallGetDataset
  | CallClose.

Definition after_call `{DataLoaderInterface L} (self : L) (c : loader_call) : L :=
  match c with
  | CallClose =>
      match close self with
      | Ok self' => self'
      | Raise _ => self
      end
  | _ => self
  end.

Definition after_calls `{DataLoaderInterface L} (self : L)
    (calls : list loader_call) : L :=
  foldl after_call self calls.

(** A paired, unlabeled loader over three image pairs whose voxels all
    have intensity 255, and pass-through collaborators. *)
Definition full_voxel : ndarray := {| shape := [1; 1; 1]; data := [f_255] |}.

Definition voxel_backend : FileLoader :=
  {| grouped := false; group_ids := None; group_sample_dict := None;
     get_data := fun _ => Ok full_voxel |}.

Definition three_pairs : GeneratorDataLoader :=
  {| base := DataLoader_init (Some false) (Some 2%Z) (Some SampleAll) None;
     loader_moving_image := Some voxel_backend;
     loader_fixed_image := Some voxel_backend;
     loader_moving_label := None;
     loader_fixed_label := None;
     sample_index_generator :=
       ([(Index 0, Index 0, [0%Z]); (Index 1, Index 1, [1%Z]);
         (Index 2, Index 2, [2%Z])], None);
     draws := fun _ => 0 |}.


(** A paired, labeled loader over two image pairs with two-channel
    labels. *)
Definition label_backend : FileLoader :=
  {| grouped := false; group_ids := None; group_sample_dict := None;
     get_data := fun _ => Ok two_channel_label |}.

Definition two_labeled_pairs : GeneratorDataLoader :=
  {| base := DataLoader_init (Some true) (Some 2%Z) (Some SampleAll) None;
     loader_moving_image := Some voxel_backend;
     loader_fixed_image := Some voxel_backend;
     loader_moving_label := Some label_backend;
     loader_fixed_label := Some label_backend;
     sample_index_generator :=
       ([(Index 0, Index 0, [0%Z]); (Index 1, Index 1, [1%Z])], None);
     draws := fun _ => 0 |}.

(** The record of an unlabeled loader for the index tuple [t]. *)
Definition unlabeled_record (self : GeneratorDataLoader) (t : index_tuple)
  : sample :=
  unlabeled_sample
    (Some (div255 (fetched (loader_moving_image self) t.1.1)))
    (Some (div255 (fetched (loader_fixed_image self) t.1.2)))
    (float32_indices t.2 (-1)).

(** The three records of [three_pairs], and a loader that stores them. *)
Definition three_records : list sample :=
  map (unlabeled_record three_pairs)
    [(Index 0, Index 0, [0%Z]); (Index 1, Index 1, [1%Z]);
     (Index 2, Index 2, [2%Z])].

Definition three_pairs_loader : StoredLoader :=
  {| stored_moving_shape := [1%Z; 1%Z; 1%Z];
     stored_fixed_shape := [1%Z; 1%Z; 1%Z];
     stored_samples := three_records |}.

Definition keep_size (x : sample) (moving fixed : list Z) : sample := x.
Definition keep_batch (moving fixed : list Z) (batch_size : Z)
    (batch : list sample) : list sample := batch.
Definition first_slot (epoch step : nat) : nat := 0.

(** Sizes of the first [n] batches of a preprocessed dataset. *)
Definition batch_sizes (r : result (Dataset (list sample))) (n : nat)
  : result (list nat) :=
  let* d := r in Ok (map length (d 0 n)).

(** The record of an unlabeled pair of voxels. *)
Definition voxel_pair_record : sample :=
  unlabeled_sample (Some black_voxel) (Some white_voxel)
    (float32_indices [4%Z] (-1)).

(** The record [sample_image_label] builds for channel [c] of the labels
    [m] and [f]. *)
Definition channel_record (moving_image fixed_image : option ndarray)
    (m f : ndarray) (image_indices : list Z) (c : nat) : sample :=
  labeled_sample moving_image fixed_image
    (float32_indices image_indices (Z.of_nat c))
    (VArray (slice_or_self m c)) (VArray (slice_or_self f c)).

(** How a generator that was going through a list of items ended: with
    no exception when nothing was left, with [e] otherwise. *)
Definition stopped_by {A : Type} (left_over : list A) (e : exn) : option exn :=
  match left_over with
  | [] => None
  | _ :: _ => Some e
  end.

(** A raw image whose division by 255 gives a valid image: 3-dimensional,
    not empty, and passing the range check once divided. *)
Definition raw_image_ok (a : ndarray) : Prop :=
  ndim a = 3 /\ ~ zero_size a /\ ~ fails_range_check (div255 a).

(** A voxel holding the negative double closest to zero, -2^-1074. *)
Definition faint_negative_voxel : ndarray :=
  {| shape := [1; 1; 1]; data := [S754_finite true 1 (-1074)] |}.

(** A backend whose image number 1 was not stored with intensities in
    [0, 255], and a loader that reads three pairs from it. *)
Definition overexposed_voxel : ndarray :=
  {| shape := [1; 1; 1]; data := [float_of_Z 300] |}.

Definition faulty_backend : FileLoader :=
  {| grouped := false; group_ids := None; group_sample_dict := None;
     get_data := fun i =>
       match i with
       | Index 1 => Ok overexposed_voxel
       | _ => Ok full_voxel
       end |}.

Definition three_pairs_one_faulty : GeneratorDataLoader :=
  {| base := DataLoader_init (Some false) (Some 2%Z) (Some SampleAll) None;
     loader_moving_image := Some faulty_backend;
     loader_fixed_image := Some voxel_backend;
     loader_moving_label := None;
     loader_fixed_label := None;
     sample_index_generator :=
       ([(Index 0, Index 0, [0%Z]); (Index 1, Index 1, [1%Z]);
         (Index 2, Index 2, [2%Z])], None);
     draws := fun _ => 0 |}.

(** Groups that all have samples. *)
Definition groups_all_filled : gmap Z (list Z) :=
  {[ 1%Z := [10%Z; 11%Z]; 2%Z := [12%Z] ]}.

(** An unpaired loader of a given image shape. *)
Definition unpaired_of_shape (shp : list Z) : AbstractUnpairedDataLoader :=
  {| unpaired_base := DataLoader_init (Some true) (Some 3%Z) (Some SampleAll) None;
     image_shape := shp;
     _num_samples := Some 1%Z |}.

(* ===================================================================== *)
(** * Properties *)


(** ** Floating-point comparisons *)

Lemma np_minimum_nan_r (a : spec_float) : np_minimum a S754_nan = S754_nan.
Proof. by destruct a. Qed.

Lemma np_maximum_nan_r (a : spec_float) : np_maximum a S754_nan = S754_nan.
Proof. by destruct a. Qed.

Lemma fold_minimum_nan (xs : list spec_float) :
  fold_left np_minimum xs S754_nan = S754_nan.
Proof. induction xs as [|z xs IH]; [reflexivity|exact IH]. Qed.

Lemma fold_maximum_nan (xs : list spec_float) :
  fold_left np_maximum xs S754_nan = S754_nan.
Proof. induction xs as [|z xs IH]; [reflexivity|exact IH]. Qed.

(** A reduction over a list that holds a NaN is NaN. *)
Lemma fold_minimum_has_nan (xs : list spec_float) (x : spec_float) :
  S754_nan ∈ x :: xs -> fold_left np_minimum xs x = S754_nan.
Proof.
  revert x. induction xs as [|z xs IH]; intros x Hin.
  - apply list_elem_of_singleton in Hin. by subst.
  - simpl. apply elem_of_cons in Hin as [<-|Hin].
    + apply fold_minimum_nan.
    + apply elem_of_cons in Hin as [<-|Hin].
      * rewrite np_minimum_nan_r. apply fold_minimum_nan.
      * apply IH. by apply list_elem_of_further.
Qed.

Lemma fold_maximum_has_nan (xs : list spec_float) (x : spec_float) :
  S754_nan ∈ x :: xs -> fold_left np_maximum xs x = S754_nan.
Proof.
  revert x. induction xs as [|z xs IH]; intros x Hin.
  - apply list_elem_of_singleton in Hin. by subst.
  - simpl. apply elem_of_cons in Hin as [<-|Hin].
    + apply fold_maximum_nan.
    + apply elem_of_cons in Hin as [<-|Hin].
      * rewrite np_maximum_nan_r. apply fold_maximum_nan.
      * apply IH. by apply list_elem_of_further.
Qed.

Lemma np_minimum_not_nan (a b : spec_float) :
  a <> S754_nan -> b <> S754_nan -> np_minimum a b <> S754_nan.
Proof.
  intros Ha Hb. unfold np_minimum.
  destruct (SFcompare a b) as [[]|] eqn:E; try assumption.
  destruct a, b; simpl in E; congruence.
Qed.

Lemma np_maximum_not_nan (a b : spec_float) :
  a <> S754_nan -> b <> S754_nan -> np_maximum a b <> S754_nan.
Proof.
  intros Ha Hb. unfold np_maximum.
  destruct (SFcompare a b) as [[]|] eqn:E; try assumption.
  destruct a, b; simpl in E; congruence.
Qed.

Lemma np_minimum_below_zero (a b : spec_float) :
  a <> S754_nan -> b <> S754_nan ->
  float_lt (np_minimum a b) f_zero = float_lt a f_zero || float_lt b f_zero.
Proof.
  intros Ha Hb. unfold np_minimum, float_lt, SFltb, f_zero.
  destruct a as [sa|[]| |[] ma ea], b as [sb|[]| |[] mb eb];
    try congruence; simpl; try reflexivity;
    destruct (ea ?= eb)%Z; try reflexivity;
    destruct (Pos.compare_cont Eq ma mb); reflexivity.
Qed.

(** [SFcompare] orders the positive finite numbers by exponent, then by
    mantissa. *)
Lemma finite_compare_lt (m1 : positive) (e1 : Z) (m2 : positive) (e2 : Z) :
  match (e1 ?= e2)%Z with
  | Lt => Lt
  | Gt => Gt
  | Eq => Pos.compare_cont Eq m1 m2
  end = Lt <-> (e1 < e2)%Z \/ (e1 = e2 /\ (m1 < m2)%positive).
Proof.
  change (Pos.compare_cont Eq m1 m2) with (m1 ?= m2)%positive.
  destruct (Z.compare_spec e1 e2) as [->|H|H].
  - rewrite Pos.compare_lt_iff. split; [intros; right; by split|].
    intros [?|[_ ?]]; [lia|done].
  - split; [by left|done].
  - split; [discriminate|]. intros [?|[? _]]; lia.
Qed.

Lemma finite_lt (m1 : positive) (e1 : Z) (m2 : positive) (e2 : Z) :
  float_lt (S754_finite false m1 e1) (S754_finite false m2 e2) = true
  <-> (e1 < e2)%Z \/ (e1 = e2 /\ (m1 < m2)%positive).
Proof.
  rewrite <- finite_compare_lt. unfold float_lt, SFltb. simpl.
  destruct (e1 ?= e2)%Z; try done.
  destruct (Pos.compare_cont Eq m1 m2); done.
Qed.

Lemma np_maximum_finite (m1 : positive) (e1 : Z) (m2 : positive) (e2 : Z) :
  np_maximum (S754_finite false m1 e1) (S754_finite false m2 e2)
  = if float_lt (S754_finite false m1 e1) (S754_finite false m2 e2)
    then S754_finite false m2 e2 else S754_finite false m1 e1.
Proof.
  unfold np_maximum, float_lt, SFltb. simpl.
  destruct (e1 ?= e2)%Z; try reflexivity.
  by destruct (Pos.compare_cont Eq m1 m2).
Qed.

Lemma np_maximum_above_one (a b : spec_float) :
  a <> S754_nan -> b <> S754_nan ->
  float_lt f_one (np_maximum a b) = float_lt f_one a || float_lt f_one b.
Proof.
  intros Ha Hb.
  destruct a as [sa|[]| |[] ma ea], b as [sb|[]| |[] mb eb];
    try congruence;
    try (solve [ change f_one with (S754_finite false 4503599627370496 (-52));
                 unfold np_maximum, float_lt, SFltb; simpl;
                 repeat match goal with
                        | |- context [(?x ?= ?y)%Z] => destruct (x ?= y)%Z
                        | |- context [Pos.compare_cont Eq ?x ?y] =>
                            destruct (Pos.compare_cont Eq x y)
                        end; rewrite ?orb_false_r, ?orb_true_r; reflexivity ]).
  - rewrite np_maximum_finite.
    change f_one with (S754_finite false 4503599627370496 (-52)).
    destruct (float_lt (S754_finite false ma ea) (S754_finite false mb eb))
      eqn:Hab;
      destruct (float_lt (S754_finite false 4503599627370496 (-52))
                  (S754_finite false ma ea)) eqn:H1a;
      destruct (float_lt (S754_finite false 4503599627370496 (-52))
                  (S754_finite false mb eb)) eqn:H1b;
      try reflexivity; exfalso;
      repeat match goal with
             | H : float_lt _ _ = true |- _ => apply finite_lt in H
             | H : float_lt _ _ = false |- _ =>
                 apply not_true_iff_false in H; rewrite finite_lt in H
             end; lia.
Qed.

(** Without NaN, the minimum is below zero exactly when some element is,
    and the maximum above one exactly when some element is. *)
Lemma fold_minimum_below_zero (xs : list spec_float) (x : spec_float) :
  S754_nan ∉ x :: xs ->
  float_lt (fold_left np_minimum xs x) f_zero = true
  <-> Exists (fun y => float_lt y f_zero = true) (x :: xs).
Proof.
  revert x. induction xs as [|z xs IH]; intros x Hnan.
  - simpl. rewrite Exists_cons, Exists_nil. tauto.
  - rewrite !not_elem_of_cons in Hnan. destruct Hnan as (Hx & Hz & Hxs).
    simpl. rewrite IH.
    + rewrite !Exists_cons, np_minimum_below_zero, orb_true_iff by congruence.
      tauto.
    + rewrite not_elem_of_cons. split; [|exact Hxs].
      intros H. symmetry in H. revert H. apply np_minimum_not_nan; congruence.
Qed.

Lemma fold_maximum_above_one (xs : list spec_float) (x : spec_float) :
  S754_nan ∉ x :: xs ->
  float_lt f_one (fold_left np_maximum xs x) = true
  <-> Exists (fun y => float_lt f_one y = true) (x :: xs).
Proof.
  revert x. induction xs as [|z xs IH]; intros x Hnan.
  - simpl. rewrite Exists_cons, Exists_nil. tauto.
  - rewrite !not_elem_of_cons in Hnan. destruct Hnan as (Hx & Hz & Hxs).
    simpl. rewrite IH.
    + rewrite !Exists_cons, np_maximum_above_one, orb_true_iff by congruence.
      tauto.
    + rewrite not_elem_of_cons. split; [|exact Hxs].
      intros H. symmetry in H. revert H. apply np_maximum_not_nan; congruence.
Qed.

Lemma has_nan_cases (l : list spec_float) : S754_nan ∈ l \/ S754_nan ∉ l.
Proof.
  induction l as [|x l [IH|IH]].
  - right. apply not_elem_of_nil.
  - left. by apply list_elem_of_further.
  - destruct x; try (right; rewrite not_elem_of_cons; split; [discriminate|done]).
    left. apply list_elem_of_here.
Qed.

(** ** Range check *)

Lemma check_range_None (name : string) : check_range (None, name) = Ok tt.
Proof. reflexivity. Qed.

(** An array that holds a NaN passes the range check, whatever else it
    holds: both comparisons with a NaN are false. *)
Lemma check_range_nan (a : ndarray) (name : string) :
  has_nan a -> check_range (Some a, name) = Ok tt.
Proof.
  unfold has_nan, check_range, np_min, np_max. simpl. intros Hnan.
  destruct (data a) as [|x xs] eqn:E; [by apply elem_of_nil in Hnan|].
  simpl. by rewrite fold_minimum_has_nan, fold_maximum_has_nan.
Qed.

Lemma check_range_ok (a : ndarray) (name : string) :
  check_range (Some a, name) = Ok tt
  <-> ~ zero_size a /\ ~ fails_range_check a.
Proof.
  destruct (has_nan_cases (data a)) as [Hnan|Hnan].
  { rewrite check_range_nan by exact Hnan. split; [intros _|done].
    split; [|by intros [H _]].
    unfold zero_size. intros E. rewrite E in Hnan. by apply elem_of_nil in Hnan. }
  unfold check_range, np_min, np_max, zero_size, fails_range_check, has_nan,
    out_of_range; simpl.
  destruct (data a) as [|x xs] eqn:E; simpl.
  - split; [discriminate | intros [H _]; congruence].
  - destruct (float_lt (fold_left np_minimum xs x) f_zero) eqn:Hlo.
    + apply fold_minimum_below_zero in Hlo; [|exact Hnan].
      split; [discriminate|]. intros [_ H]. exfalso. apply H.
      split; [exact Hnan|].
      eapply Exists_impl; [exact Hlo|]. simpl; tauto.
    + destruct (float_lt f_one (fold_left np_maximum xs x)) eqn:Hhi.
      * apply fold_maximum_above_one in Hhi; [|exact Hnan].
        split; [discriminate|]. intros [_ H]. exfalso. apply H.
        split; [exact Hnan|].
        eapply Exists_impl; [exact Hhi|]. simpl; tauto.
      * split; [|reflexivity]. intros _. split; [discriminate|].
        intros [_ H]. apply Exists_exists in H as (y & Hy & [Hl|Hh]).
        -- assert (float_lt (fold_left np_minimum xs x) f_zero = true);
             [|congruence].
           apply fold_minimum_below_zero; [exact Hnan|].
           apply Exists_exists. eauto.
        -- assert (float_lt f_one (fold_left np_maximum xs x) = true);
             [|congruence].
           apply fold_maximum_above_one; [exact Hnan|].
           apply Exists_exists. eauto.
Qed.

Lemma check_range_cases (entry : option ndarray * string) :
  check_range entry = Ok tt \/ is_value_error (check_range entry).
Proof.
  destruct entry as [[a|] name]; [|left; reflexivity].
  unfold check_range, np_min, np_max, is_value_error; simpl.
  destruct (data a) as [|x xs]; simpl; [right; eauto|].
  destruct (float_lt _ f_zero); [right; eauto|].
  destruct (float_lt f_one _); [right; eauto | left; reflexivity].
Qed.

Lemma check_range_dichotomy (a : ndarray) (name : string) :
  (check_range (Some a, name) = Ok tt
   /\ ~ zero_size a /\ ~ fails_range_check a)
  \/ (is_value_error (check_range (Some a, name))
      /\ (zero_size a \/ fails_range_check a)).
Proof.
  destruct (check_range_cases (Some a, name)) as [Hok|Herr].
  - left. split; [exact Hok|]. exact (proj1 (check_range_ok a name) Hok).
  - right. split; [exact Herr|].
    destruct (data a) as [|x xs] eqn:E; [left; exact E|]. right.
    destruct (has_nan_cases (data a)) as [Hnan|Hnan].
    { rewrite check_range_nan in Herr by exact Hnan.
      destruct Herr as [why Hwhy]. discriminate. }
    split; [exact Hnan|].
    destruct Herr as [why Hwhy].
    unfold check_range, np_min, np_max in Hwhy; simpl in Hwhy.
    unfold out_of_range. rewrite E in *. simpl in Hwhy.
    destruct (float_lt (fold_left np_minimum xs x) f_zero) eqn:Hlo.
    + apply fold_minimum_below_zero in Hlo; [|exact Hnan].
      eapply Exists_impl; [exact Hlo|]. simpl; tauto.
    + destruct (float_lt f_one (fold_left np_maximum xs x)) eqn:Hhi;
        [|discriminate].
      apply fold_maximum_above_one in Hhi; [|exact Hnan].
      eapply Exists_impl; [exact Hhi|]. simpl; tauto.
Qed.

(** ** Validation *)

Lemma num_labels_of_channel_count (label : ndarray) :
  ndim label = 3 \/ ndim label = 4 ->
  num_labels_of label = channel_count label.
Proof.
  unfold num_labels_of, channel_count, ndim.
  destruct (shape label) as [|a [|b [|c [|d [|e l]]]]]; simpl; intros [H|H];
    try discriminate; reflexivity.
Qed.

Lemma supplied_Some (a : ndarray) (l : list (option ndarray)) :
  supplied (Some a :: l) = a :: supplied l.
Proof. reflexivity. Qed.

Lemma supplied_None (l : list (option ndarray)) :
  supplied (None :: l) = supplied l.
Proof. reflexivity. Qed.

Lemma supplied_nil : supplied [] = [].
Proof. reflexivity. Qed.

Lemma is_value_error_Raise {A : Type} (why : value_error) :
  is_value_error (A := A) (Raise (ValueError why)).
Proof. by exists why. Qed.

Lemma not_value_error_Ok {A : Type} (a : A) : ~ is_value_error (Ok a).
Proof. intros [why H]. discriminate. Qed.

Lemma returns_Ok {A : Type} (a : A) : returns (Ok a).
Proof. by exists a. Qed.

#[local] Hint Resolve is_value_error_Raise returns_Ok : core.

Ltac unfold_failure :=
  unfold validation_failure, listed_failure, some_zero_size;
  repeat (rewrite supplied_Some || rewrite supplied_None);
  rewrite ?supplied_nil;
  rewrite ?Exists_cons, ?Exists_nil.

Ltac range_step a name :=
  let Hr := fresh "Hr" in
  let Hz := fresh "Hz" in
  let Ho := fresh "Ho" in
  let why := fresh "why" in
  destruct (check_range_dichotomy a name) as [(Hr & Hz & Ho) | ([why Hr] & Hz)];
  rewrite Hr; cbn [bind];
  [ | split; [split; [intros _; unfold_failure; tauto | auto] | auto] ].

Ltac refute_failure :=
  let H := fresh "H" in
  intros H; exfalso; revert H; unfold_failure; intros H;
  decompose [or and ex] H; clear H; simplify_eq;
  try tauto; try lia; try congruence.

Ltac fail_case :=
  split; [split; [intros _; unfold_failure; tauto | auto] | auto].

Ltac dim3_step a :=
  let Hd := fresh "Hd" in
  destruct (Nat.eqb_spec (ndim a) 3) as [Hd|Hd]; cbn [negb bind];
  [ | fail_case ].

Lemma validate_trichotomy
    (moving_image fixed_image moving_label fixed_label : option ndarray)
    (image_indices : list Z) :
  let r := validate_images_and_labels moving_image fixed_image
             moving_label fixed_label image_indices in
  (is_value_error r <->
     validation_failure moving_image fixed_image moving_label fixed_label
     \/ some_zero_size moving_image fixed_image moving_label fixed_label)
  /\ (returns r \/ is_value_error r).
Proof.
  intros r. subst r.
  destruct moving_image as [mi|]; cycle 1.
  { split; [|right; destruct fixed_image; simpl; auto].
    split; [intros _; left; left; by left|].
    intros _. destruct fixed_image; simpl; auto. }
  destruct fixed_image as [fi|]; cycle 1.
  { split; [|right; simpl; auto].
    split; [intros _; left; left; by right| simpl; auto]. }
  unfold validate_images_and_labels.
  destruct moving_label as [ml|], fixed_label as [fl|];
    cbn [is_none eqb negb for_each bind].
  - (* both labels are arrays *)
    range_step mi "moving_image". range_step fi "fixed_image".
    range_step ml "moving_label". range_step fl "fixed_label".
    unfold check_image_dim, check_label_dim; cbn [fst snd].
    dim3_step mi. dim3_step fi.
    assert (Hcases : (ndim ml = 3 \/ ndim ml = 4) \/ (ndim ml <> 3 /\ ndim ml <> 4))
      by lia.
    destruct Hcases as [Hml|Hml]; cycle 1.
    { destruct (Nat.eqb_spec (ndim ml) 3); [lia|].
      destruct (Nat.eqb_spec (ndim ml) 4); [lia|]. cbn [orb negb bind].
      fail_case. }
    assert (Hm : negb ((ndim ml =? 3) || (ndim ml =? 4)) = false).
    { destruct (Nat.eqb_spec (ndim ml) 3); [reflexivity|].
      destruct (Nat.eqb_spec (ndim ml) 4); [reflexivity|lia]. }
    rewrite Hm; cbn [bind].
    assert (Hcases : (ndim fl = 3 \/ ndim fl = 4) \/ (ndim fl <> 3 /\ ndim fl <> 4))
      by lia.
    destruct Hcases as [Hfl|Hfl]; cycle 1.
    { destruct (Nat.eqb_spec (ndim fl) 3); [lia|].
      destruct (Nat.eqb_spec (ndim fl) 4); [lia|]. cbn [orb negb bind].
      fail_case. }
    assert (Hf : negb ((ndim fl =? 3) || (ndim fl =? 4)) = false).
    { destruct (Nat.eqb_spec (ndim fl) 3); [reflexivity|].
      destruct (Nat.eqb_spec (ndim fl) 4); [reflexivity|lia]. }
    rewrite Hf; cbn [bind].
    rewrite !num_labels_of_channel_count by assumption.
    destruct (Nat.eqb_spec (channel_count ml) (channel_count fl)) as [Hc|Hc];
      cbn [negb].
    + split; [|auto]. split; [intros H; by apply not_value_error_Ok in H|].
      refute_failure.
    + split; [|auto]. split; [intros _|auto].
      left. do 5 right. by exists ml, fl.
  - split; [|auto]. split; [intros _|auto]. left. right. left. discriminate.
  - split; [|auto]. split; [intros _|auto]. left. right. left. discriminate.
  - range_step mi "moving_image". range_step fi "fixed_image".
    rewrite !check_range_None. cbn [bind].
    unfold check_image_dim; cbn [fst snd].
    dim3_step mi. dim3_step fi.
    split; [|auto]. split; [intros H; by apply not_value_error_Ok in H|].
    refute_failure.
Qed.

Lemma validate_returns_warnings
    (mi fi ml fl : ndarray) (image_indices : list Z) :
  returns (validate_images_and_labels (Some mi) (Some fi) (Some ml) (Some fl)
             image_indices) ->
  validate_images_and_labels (Some mi) (Some fi) (Some ml) (Some fl)
    image_indices = Ok (shape_warnings mi fi ml fl).
Proof.
  unfold validate_images_and_labels. cbn [is_none eqb negb].
  intros [ws Hws]. revert Hws.
  destruct (for_each check_range _); cbn [bind]; [|discriminate].
  destruct (for_each check_image_dim _); cbn [bind]; [|discriminate].
  destruct (for_each check_label_dim _); cbn [bind]; [|discriminate].
  destruct (negb _); [discriminate|reflexivity].
Qed.

(** ** C2: when validation fails *)


(** ** Slicing the last axis *)

Lemma size_of_app (l1 l2 : list nat) :
  size_of (l1 ++ l2) = size_of l1 * size_of l2.
Proof.
  unfold size_of. induction l1 as [|x l1 IH]; simpl; [lia|].
  rewrite IH. lia.
Qed.

Lemma strided_length (n k rows : nat) (l : list spec_float) :
  k < n -> length l = rows * n -> length (strided n k l rows) = rows.
Proof.
  intros Hk. revert l. induction rows as [|rows IH]; intros l Hl; [reflexivity|].
  simpl. destruct (drop k l) as [|x t] eqn:E.
  - apply (f_equal length) in E. rewrite length_drop in E. simpl in E. lia.
  - simpl. f_equal. apply IH. rewrite length_drop. lia.
Qed.

Lemma strided_lookup (n k rows j : nat) (l : list spec_float) :
  k < n -> length l = rows * n -> j < rows ->
  strided n k l rows !! j = l !! (j * n + k).
Proof.
  intros Hk. revert l j. induction rows as [|rows IH]; intros l j Hl Hj; [lia|].
  simpl. destruct (drop k l) as [|x t] eqn:E.
  - apply (f_equal length) in E. rewrite length_drop in E. simpl in E. lia.
  - destruct j as [|j]; simpl.
    + rewrite <- (Nat.add_0_r k), <- lookup_drop, E. reflexivity.
    + rewrite IH by (rewrite ?length_drop; lia).
      rewrite lookup_drop. f_equal. lia.
Qed.

Lemma index_last_spec (a : ndarray) (n k : nat) :
  well_formed a -> last (shape a) = Some n -> k < n ->
  exists s, index_last a k = Ok s
            /\ shape s = removelast (shape a)
            /\ well_formed s
            /\ forall j, j < size_of (shape s) ->
                         data s !! j = data a !! (j * n + k).
Proof.
  intros Hwf Hlast Hk. unfold index_last. rewrite Hlast.
  destruct (Nat.ltb_spec k n) as [_|]; [|lia].
  eexists. split; [reflexivity|]. simpl.
  apply last_Some in Hlast as [init Hinit].
  assert (Hlen : length (data a) = size_of (removelast (shape a)) * n).
  { rewrite Hwf, Hinit, removelast_last, size_of_app. unfold size_of; simpl. lia. }
  split; [reflexivity|]. split.
  - unfold well_formed; simpl. by apply strided_length.
  - intros j Hj. by apply strided_lookup.
Qed.

(** ** What a successful validation establishes *)

Lemma validate_returns_images
    (moving_image fixed_image moving_label fixed_label : option ndarray)
    (image_indices : list Z) :
  returns (validate_images_and_labels moving_image fixed_image
             moving_label fixed_label image_indices) ->
  exists mi fi, moving_image = Some mi /\ fixed_image = Some fi
                /\ ndim mi = 3 /\ ndim fi = 3
                /\ is_none moving_label = is_none fixed_label.
Proof.
  intros [ws Hws].
  destruct (validate_trichotomy moving_image fixed_image moving_label
              fixed_label image_indices) as [Hiff _].
  rewrite Hws in Hiff.
  assert (Hno : ~ (validation_failure moving_image fixed_image moving_label fixed_label
                   \/ some_zero_size moving_image fixed_image moving_label
                        fixed_label)).
  { intros H. apply Hiff in H. by apply not_value_error_Ok in H. }
  destruct moving_image as [mi|]; [|exfalso; apply Hno; left; left; by left].
  destruct fixed_image as [fi|]; [|exfalso; apply Hno; left; left; by right].
  exists mi, fi. repeat split.
  - destruct (decide (ndim mi = 3)) as [|Hne]; [done|].
    exfalso. apply Hno. left. do 3 right. left.
    rewrite supplied_Some. by apply Exists_cons_hd.
  - destruct (decide (ndim fi = 3)) as [|Hne]; [done|].
    exfalso. apply Hno. left. do 3 right. left.
    rewrite !supplied_Some. by apply Exists_cons_tl, Exists_cons_hd.
  - destruct (decide (is_none moving_label = is_none fixed_label)) as [|Hne];
      [done|]. exfalso. apply Hno. left. right. by left.
Qed.

Lemma validate_returns_labels
    (moving_image fixed_image : option ndarray) (ml fl : ndarray)
    (image_indices : list Z) :
  returns (validate_images_and_labels moving_image fixed_image
             (Some ml) (Some fl) image_indices) ->
  (ndim ml = 3 \/ ndim ml = 4) /\ (ndim fl = 3 \/ ndim fl = 4)
  /\ num_labels_of ml = num_labels_of fl
  /\ ~ zero_size ml /\ ~ zero_size fl.
Proof.
  intros [ws Hws].
  destruct (validate_trichotomy moving_image fixed_image (Some ml) (Some fl)
              image_indices) as [Hiff _].
  rewrite Hws in Hiff.
  assert (Hno : ~ (validation_failure moving_image fixed_image (Some ml) (Some fl)
                   \/ some_zero_size moving_image fixed_image (Some ml)
                        (Some fl))).
  { intros H. apply Hiff in H. by apply not_value_error_Ok in H. }
  assert (Hm : ndim ml = 3 \/ ndim ml = 4).
  { destruct (decide (ndim ml = 3)); [by left|].
    destruct (decide (ndim ml = 4)); [by right|].
    exfalso. apply Hno. left. do 4 right. left.
    rewrite supplied_Some. by apply Exists_cons_hd. }
  assert (Hf : ndim fl = 3 \/ ndim fl = 4).
  { destruct (decide (ndim fl = 3)); [by left|].
    destruct (decide (ndim fl = 4)); [by right|].
    exfalso. apply Hno. left. do 4 right. left.
    rewrite !supplied_Some. by apply Exists_cons_tl, Exists_cons_hd. }
  split; [exact Hm|]. split; [exact Hf|]. split; [|split].
  - rewrite !num_labels_of_channel_count by assumption.
    destruct (decide (channel_count ml = channel_count fl)); [done|].
    exfalso. apply Hno. left. do 5 right. by exists ml, fl.
  - intros Hz. apply Hno. right. unfold some_zero_size.
    destruct moving_image, fixed_image;
      repeat (rewrite supplied_Some || rewrite supplied_None);
      rewrite ?Exists_cons; tauto.
  - intros Hz. apply Hno. right. unfold some_zero_size.
    destruct moving_image, fixed_image;
      repeat (rewrite supplied_Some || rewrite supplied_None);
      rewrite ?Exists_cons; tauto.
Qed.

(** ** sample_image_label *)

Lemma yield_each_ok {A B : Type} (body : A -> result B) (g : A -> B)
    (xs : list A) :
  (forall x, x ∈ xs -> body x = Ok (g x)) ->
  yield_each body xs = (map g xs, None).
Proof.
  induction xs as [|x xs IH]; intros Hbody; [reflexivity|].
  simpl. rewrite Hbody by apply list_elem_of_here.
  rewrite IH; [reflexivity|].
  intros y Hy. apply Hbody. by apply list_elem_of_further.
Qed.

Lemma last_of_four (shp : list nat) (n : nat) :
  length shp = 4 -> shp !! 3 = Some n -> last shp = Some n.
Proof.
  destruct shp as [|a [|b [|c [|d [|e l]]]]]; simpl; intros Hlen Hn;
    try discriminate. exact Hn.
Qed.

Lemma last_positive (a : ndarray) (n : nat) :
  well_formed a -> ~ zero_size a -> last (shape a) = Some n -> 0 < n.
Proof.
  unfold well_formed, zero_size. intros Hwf Hnz Hlast.
  apply last_Some in Hlast as [init Hinit].
  rewrite Hinit, size_of_app in Hwf. unfold size_of at 2 in Hwf. simpl in Hwf.
  destruct n; [|lia]. exfalso. apply Hnz.
  apply length_zero_iff_nil. lia.
Qed.

Lemma index_last_slice (a : ndarray) (n k : nat) :
  well_formed a -> last (shape a) = Some n -> k < n ->
  index_last a k = Ok (slice_or_self a k).
Proof.
  intros Hwf Hlast Hk.
  destruct (index_last_spec a n k Hwf Hlast Hk) as (s & Hs & _).
  unfold slice_or_self. by rewrite Hs.
Qed.

(** Both labels can be sliced at every channel of a validated 4-D moving
    label. *)
Lemma validated_channels (moving_image fixed_image : option ndarray)
    (m f : ndarray) (image_indices : list Z) (n : nat) :
  returns (validate_images_and_labels moving_image fixed_image
             (Some m) (Some f) image_indices) ->
  well_formed m -> well_formed f ->
  ndim m = 4 -> shape m !! 3 = Some n ->
  0 < n /\ forall c, c < n ->
             index_last m c = Ok (slice_or_self m c)
             /\ index_last f c = Ok (slice_or_self f c).
Proof.
  intros Hret Hwm Hwf Hdim Hn.
  apply validate_returns_labels in Hret as (_ & Hfdim & Hnum & Hmz & Hfz).
  pose proof (last_of_four _ _ Hdim Hn) as Hlast.
  pose proof (last_positive m n Hwm Hmz Hlast) as Hpos.
  split; [exact Hpos|]. intros c Hc. split.
  - by apply (index_last_slice m n).
  - unfold num_labels_of in Hnum. rewrite Hdim, Hlast in Hnum. simpl in Hnum.
    destruct (last (shape f)) as [k|] eqn:Hk; cycle 1.
    { apply last_None in Hk. unfold ndim in Hfdim. rewrite Hk in Hfdim.
      simpl in Hfdim. lia. }
    pose proof (last_positive f k Hwf Hfz Hk) as Hkpos.
    apply (index_last_slice f k); [done..|].
    destruct (Nat.eqb_spec (ndim f) 3); simpl in Hnum; lia.
Qed.
(** ** The indices vector *)

Lemma convertible_app (l1 l2 : list Z) :
  convertible (l1 ++ l2) <-> convertible l1 /\ convertible l2.
Proof. unfold convertible. rewrite forallb_app, andb_true_iff. tauto. Qed.


Lemma convertible_singleton (z : Z) :
  convertible [z] <-> fits_float z = true.
Proof. unfold convertible. simpl. rewrite andb_true_r. tauto. Qed.


(** On integers that convert, the vector is the element-wise rounding to
    binary32; otherwise the conversion raises. *)
Lemma indices_of_convertible (image_indices : list Z) (label_index : Z) :
  convertible image_indices -> fits_float label_index = true ->
  indices_of image_indices label_index
  = Ok (float32_indices image_indices label_index).
Proof.
  intros Hl Hz. unfold indices_of, asarray_float32, float32_indices.
  assert (H : convertible (image_indices ++ [label_index])).
  { apply convertible_app. split; [exact Hl|]. by apply convertible_singleton. }
  unfold convertible in H. by rewrite H.
Qed.

Lemma indices_of_overflow (image_indices : list Z) (label_index : Z) :
  ~ convertible image_indices ->
  indices_of image_indices label_index = Raise OverflowError.
Proof.
  intros Hl. unfold indices_of, asarray_float32.
  destruct (forallb fits_float (image_indices ++ [label_index])) eqn:E;
    [|reflexivity].
  exfalso. apply Hl. by apply (convertible_app image_indices [label_index]).
Qed.

(** ** C3: unlabeled and single-channel inputs *)




(** The binary32 vector of small indices, written out. *)
Example indices_of_4_unlabeled :
  float32_indices [4%Z] (-1)
  = VIndices [S754_finite false 8388608 (-21); S754_finite true 8388608 (-23)].
Proof. vm_compute. reflexivity. Qed.

(** ** C1: the policy "all" on a multi-channel label *)





(** ** C10: a one-channel 4-D moving label against a 3-D fixed label *)




(** ** C6: data_generator *)


Lemma load_tuple_inv (self : GeneratorDataLoader) (t : index_tuple)
    (mi fi : ndarray) (ml fl : option ndarray) :
  load_tuple self t = Ok (mi, fi, ml, fl) ->
  exists raw_m raw_f,
    fetch (loader_moving_image self) t.1.1 = Ok raw_m
    /\ fetch (loader_fixed_image self) t.1.2 = Ok raw_f
    /\ mi = div255 raw_m /\ fi = div255 raw_f
    /\ labels_as_configured self t ml fl.
Proof.
  destruct t as [[mx fx] ii]. unfold load_tuple, labels_as_configured. simpl.
  destruct (fetch (loader_moving_image self) mx) as [raw_m|]; [|discriminate].
  destruct (fetch (loader_fixed_image self) fx) as [raw_f|]; [|discriminate].
  simpl. destruct (truthy (labeled (base self))).
  - destruct (fetch (loader_moving_label self) mx) as [lm|]; [|discriminate].
    destruct (fetch (loader_fixed_label self) fx) as [lf|]; [|discriminate].
    simpl. intros [= <- <- <- <-]. exists raw_m, raw_f.
    repeat split. by exists lm, lf.
  - simpl. intros [= <- <- <- <-]. by exists raw_m, raw_f.
Qed.








(** The unlabeled loader yields one record per pair, the labeled one a
    record per pair and channel; the intensity 255 becomes 1. *)
Example three_pairs_records :
  data_generator three_pairs = (three_records, None).
Proof. vm_compute. reflexivity. Qed.

Example two_labeled_pairs_records :
  data_generator two_labeled_pairs
  = (map (channel_record (Some white_voxel) (Some white_voxel)
            two_channel_label two_channel_label [0%Z]) [0; 1]
     ++ map (channel_record (Some white_voxel) (Some white_voxel)
               two_channel_label two_channel_label [1%Z]) [0; 1],
     None).
Proof. vm_compute. reflexivity. Qed.

Example div255_full_voxel : div255 full_voxel = white_voxel.
Proof. vm_compute. reflexivity. Qed.
(** ** C7: ConcatenatedDataLoader *)

Lemma comprehension_ok_map {A B : Type} (body : A -> result B) (g : A -> B)
    (xs : list A) :
  (forall x, x ∈ xs -> body x = Ok (g x)) ->
  comprehension body xs = Ok (map g xs).
Proof.
  induction xs as [|x xs IH]; intros Hbody; [reflexivity|].
  simpl. rewrite Hbody by apply list_elem_of_here. simpl.
  rewrite IH; [reflexivity|].
  intros y Hy. apply Hbody. by apply list_elem_of_further.
Qed.

Lemma comprehension_Forall2 {A B : Type} (body : A -> result B)
    (xs : list A) (ys : list B) :
  comprehension body xs = Ok ys <-> Forall2 (fun x y => body x = Ok y) xs ys.
Proof.
  revert ys. induction xs as [|x xs IH]; intros ys; simpl.
  - split.
    + intros [= <-]. constructor.
    + intros H. by inversion H.
  - split.
    + destruct (body x) as [y|] eqn:E; [|discriminate]. simpl.
      destruct (comprehension body xs) as [ys'|] eqn:E'; [|discriminate].
      simpl. intros [= <-]. constructor; [exact E|]. by apply IH.
    + intros H. inversion H as [|? y ? ys' Hy Hys]; subst.
      rewrite Hy. simpl. apply IH in Hys. by rewrite Hys.
Qed.

Lemma py_sum_from_Some (acc : Z) (counts : list Z) :
  py_sum_from acc (map Some counts) = Ok (acc + foldr Z.add 0 counts)%Z.
Proof.
  revert acc. induction counts as [|n counts IH]; intros acc; simpl.
  - f_equal. lia.
  - rewrite IH. f_equal. lia.
Qed.

(** C7: constructing a [ConcatenatedDataLoader] from the empty list fails
    (the assertion), and from a non-empty list of children whose sample
    counts are [counts] it succeeds and [num_samples] is the sum of
    [counts]. *)
Theorem concatenated_num_samples_is_sum `{DataLoaderInterface L}
    (data_loaders : list L) (counts : list Z) :
  data_loaders <> [] ->
  Forall2 (fun l n => num_samples l = Ok (Some n)) data_loaders counts ->
  ConcatenatedDataLoader_init (@nil L) = Raise AssertionError
  /\ exists self,
       ConcatenatedDataLoader_init data_loaders = Ok self
       /\ loaders self = data_loaders
       /\ num_samples self = Ok (Some (foldr Z.add 0%Z counts)).
Proof.
  intros Hne Hcounts. split; [reflexivity|].
  destruct data_loaders as [|l ls]; [done|].
  eexists. split; [reflexivity|]. split; [reflexivity|].
  cbn [num_samples ConcatenatedDataLoader_interface loaders].
  assert (Hc : comprehension num_samples (l :: ls) = Ok (map Some counts)).
  { apply comprehension_Forall2. apply Forall2_fmap_r.
    eapply Forall2_impl; [exact Hcounts|]. done. }
  rewrite Hc. cbn [bind]. unfold py_sum. rewrite py_sum_from_Some.
  cbn [bind]. by rewrite Z.add_0_l.
Qed.

Lemma concatenated_num_samples_is_sum_witness :
  ConcatenatedDataLoader_init (@nil AbstractUnpairedDataLoader)
  = Raise AssertionError
  /\ exists self,
       ConcatenatedDataLoader_init
         [unpaired_of_size 10; unpaired_of_size 5; unpaired_of_size 3]
       = Ok self
       /\ loaders self
          = [unpaired_of_size 10; unpaired_of_size 5; unpaired_of_size 3]
       /\ num_samples self = Ok (Some 18%Z).
Proof.
  apply (concatenated_num_samples_is_sum
           [unpaired_of_size 10; unpaired_of_size 5; unpaired_of_size 3]
           [10%Z; 5%Z; 3%Z]).
  - discriminate.
  - repeat constructor.
Defined.

(** ** C8: empty groups *)

Lemma comprehension_if_ok {A : Type} (cond : A -> result bool)
    (p : A -> bool) (xs : list A) :
  (forall x, x ∈ xs -> cond x = Ok (p x)) ->
  comprehension_if cond xs = Ok (List.filter p xs).
Proof.
  induction xs as [|x xs IH]; intros Hcond; [reflexivity|].
  simpl. rewrite Hcond by apply list_elem_of_here. simpl.
  rewrite IH; [by destruct (p x)|].
  intros y Hy. apply Hcond. by apply list_elem_of_further.
Qed.

Lemma foldl_min_zero (x : nat) (xs : list nat) :
  foldl Nat.min x xs = 0 <-> 0 ∈ x :: xs.
Proof.
  revert x. induction xs as [|y xs IH]; intros x; simpl.
  - rewrite list_elem_of_singleton. lia.
  - rewrite IH. rewrite !elem_of_cons.
    assert (Hmin : 0 = x `min` y <-> 0 = x \/ 0 = y) by lia. tauto.
Qed.

Lemma py_min_positive (l : list nat) (smallest : nat) :
  py_min l = Ok smallest -> smallest <> 0 -> Forall (fun n => 1 <= n) l.
Proof.
  destruct l as [|x xs]; [discriminate|]. simpl. intros [= <-] Hpos.
  apply Forall_forall. intros n Hn.
  destruct n; [|lia]. exfalso. apply Hpos. by apply foldl_min_zero.
Qed.

Lemma group_len_total (self : FileLoader) (d : gmap Z (list Z)) (g : Z) :
  group_sample_dict self = Some d -> is_Some (d !! g) ->
  group_len self g = Ok (length (default [] (d !! g))).
Proof.
  intros Hd [samples Hs]. unfold group_len. by rewrite Hd, Hs.
Qed.

(** C8: on a grouped backend whose group structure is set and gives every
    group identifier an entry, [get_num_images_per_group] raises
    [ValueError], carrying exactly the identifiers of the empty groups, as
    soon as one group has no sample; it then returns no list.  The call
    itself fails: the method is an ordinary function, not a generator.
    Whenever the method returns a list, on any backend, the list gives for
    each group its number of samples, and each is at least one. *)
Theorem get_num_images_per_group_rejects_empty_groups
    (self : FileLoader) (ids : list Z) (d : gmap Z (list Z)) :
  grouped self = true ->
  group_ids self = Some ids ->
  group_sample_dict self = Some d ->
  (forall g, g ∈ ids -> is_Some (d !! g)) ->
  ((exists g, g ∈ ids /\ d !! g = Some []) ->
   exists empty_ids,
     get_num_images_per_group self = Raise (ValueError (EmptyGroups empty_ids))
     /\ empty_ids <> []
     /\ forall g, g ∈ empty_ids <-> g ∈ ids /\ d !! g = Some [])
  /\ (forall counts,
        get_num_images_per_group self = Ok counts ->
        Forall2 (fun g n => exists samples,
                     d !! g = Some samples /\ length samples = n /\ 1 <= n)
          ids counts).
Proof.
  intros Hgrouped Hids Hd Htotal.
  unfold get_num_images_per_group, iterate_group_ids.
  rewrite Hgrouped, Hids. cbn [negb bind].
  assert (Hlens : comprehension (group_len self) ids
                  = Ok (map (fun g => length (default [] (d !! g))) ids)).
  { apply comprehension_ok_map. intros g Hg. apply group_len_total; auto. }
  rewrite Hlens. cbn [bind].
  split.
  - intros (g & Hg & Hempty).
    assert (Hzero : 0 ∈ map (fun g => length (default [] (d !! g))) ids).
    { apply list_elem_of_fmap. exists g. by rewrite Hempty. }
    destruct (map _ ids) as [|x xs] eqn:Hmap; [by apply elem_of_nil in Hzero|].
    cbn [py_min bind]. apply foldl_min_zero in Hzero. rewrite Hzero.
    cbn [Nat.eqb].
    rewrite (comprehension_if_ok _
               (fun g => length (default [] (d !! g)) =? 0)); cycle 1.
    { intros g' Hg'. by rewrite (group_len_total self d g' Hd (Htotal g' Hg')). }
    cbn [bind]. eexists. split; [reflexivity|].
    assert (Hmem : forall g', g' ∈ List.filter
                     (fun g => length (default [] (d !! g)) =? 0) ids
                   <-> g' ∈ ids /\ d !! g' = Some []).
    { intros g'. rewrite list_elem_of_In, filter_In, <- list_elem_of_In.
      split; intros [Hin Hlen]; split; try done.
      - destruct (Htotal g' Hin) as [samples Hs]. rewrite Hs in *. simpl in Hlen.
        apply Nat.eqb_eq in Hlen. by destruct samples.
      - by rewrite Hlen. }
    split; [|exact Hmem].
    intros Hnil. assert (Hin : g ∈ @nil Z); [|by apply elem_of_nil in Hin].
    rewrite <- Hnil. by apply Hmem.
  - intros counts.
    destruct (py_min _) as [smallest|] eqn:Hmin; [|discriminate].
    cbn [bind]. destruct (Nat.eqb_spec smallest 0) as [|Hpos].
    { destruct (comprehension_if _ _); discriminate. }
    intros [= <-].
    pose proof (py_min_positive _ _ Hmin Hpos) as Hall.
    apply Forall2_fmap_r, Forall2_same_length_lookup. split; [done|].
    intros i g g' Hg Hg'. rewrite Hg in Hg'. injection Hg' as <-.
    assert (Hin : g ∈ ids) by (by eapply list_elem_of_lookup_2).
    destruct (Htotal g Hin) as [samples Hs].
    exists samples. rewrite Hs. simpl. split; [done|]. split; [done|].
    rewrite Forall_forall in Hall. apply Hall.
    apply list_elem_of_fmap. exists g. by rewrite Hs.
Qed.

Lemma get_num_images_per_group_rejects_empty_groups_witness :
  ((exists g, g ∈ [1%Z; 2%Z] /\ groups_with_empty !! g = Some []) ->
   exists empty_ids,
     get_num_images_per_group (grouped_backend [1%Z; 2%Z] groups_with_empty)
     = Raise (ValueError (EmptyGroups empty_ids))
     /\ empty_ids <> []
     /\ forall g, g ∈ empty_ids
                  <-> g ∈ [1%Z; 2%Z] /\ groups_with_empty !! g = Some [])
  /\ (forall counts,
        get_num_images_per_group (grouped_backend [1%Z; 2%Z] groups_with_empty)
        = Ok counts ->
        Forall2 (fun g n => exists samples,
                     groups_with_empty !! g = Some samples
                     /\ length samples = n /\ 1 <= n)
          [1%Z; 2%Z] counts).
Proof.
  apply (get_num_images_per_group_rejects_empty_groups
           (grouped_backend [1%Z; 2%Z] groups_with_empty)
           [1%Z; 2%Z] groups_with_empty).
  - reflexivity.
  - reflexivity.
  - reflexivity.
  - intros g Hg. apply elem_of_cons in Hg as [->|Hg]; [by eexists|].
    apply list_elem_of_singleton in Hg as ->. by eexists.
Defined.

Example get_num_images_per_group_names_group_2 :
  get_num_images_per_group (grouped_backend [1%Z; 2%Z] groups_with_empty)
  = Raise (ValueError (EmptyGroups [2%Z])).
Proof. vm_compute. reflexivity. Qed.

(** ** C9: shapes *)

Lemma after_calls_paired (self : AbstractPairedDataLoader)
    (calls : list loader_call) :
  after_calls self calls = self.
Proof.
  unfold after_calls. induction calls as [|c calls IH]; [reflexivity|].
  simpl. by destruct c.
Qed.

Lemma after_calls_unpaired (self : AbstractUnpairedDataLoader)
    (calls : list loader_call) :
  after_calls self calls = self.
Proof.
  unfold after_calls. induction calls as [|c calls IH]; [reflexivity|].
  simpl. by destruct c.
Qed.

(** C9: constructing a paired loader raises ([ValueError]) exactly when one
    of the two shapes has a length other than 3, constructing an unpaired
    loader exactly when its shape has; nothing else is raised.  A
    constructed unpaired loader returns the configured [image_shape], of
    length 3, as both [moving_image_shape] and [fixed_image_shape]; a
    constructed paired loader returns the two configured shapes, each of
    length 3; and this remains so after any sequence of calls of the
    loader's members. *)
Theorem loader_shapes_validated_and_fixed
    (moving_shape fixed_shape shape3 : list Z)
    (labeled : option bool) (sample_label : option label_policy)
    (seed : option Z) :
  let paired :=
    AbstractPairedDataLoader_init moving_shape fixed_shape labeled
      sample_label seed in
  let unpaired :=
    AbstractUnpairedDataLoader_init shape3 labeled sample_label seed in
  (is_value_error paired <-> length moving_shape <> 3 \/ length fixed_shape <> 3)
  /\ (returns paired \/ is_value_error paired)
  /\ (forall self calls,
        paired = Ok self ->
        length moving_shape = 3 /\ length fixed_shape = 3
        /\ moving_image_shape (after_calls self calls) = Ok moving_shape
        /\ fixed_image_shape (after_calls self calls) = Ok fixed_shape)
  /\ (is_value_error unpaired <-> length shape3 <> 3)
  /\ (returns unpaired \/ is_value_error unpaired)
  /\ (forall self calls,
        unpaired = Ok self ->
        length shape3 = 3
        /\ moving_image_shape (after_calls self calls) = Ok shape3
        /\ fixed_image_shape (after_calls self calls) = Ok shape3).
Proof.
  intros paired unpaired. subst paired unpaired.
  unfold AbstractPairedDataLoader_init, AbstractUnpairedDataLoader_init.
  destruct (Nat.eqb_spec (length moving_shape) 3) as [Hm|Hm];
    destruct (Nat.eqb_spec (length fixed_shape) 3) as [Hf|Hf];
    destruct (Nat.eqb_spec (length shape3) 3) as [Hs|Hs]; cbn [negb orb];
    (split; [split; [intros He; try (by apply not_value_error_Ok in He); tauto
                    | intros Hne; try (by apply is_value_error_Raise); tauto]|]);
    (split; [auto|]);
    (split; [intros self calls [= <-]; rewrite ?after_calls_paired; by repeat split|]);
    (split; [split; [intros He; try (by apply not_value_error_Ok in He); tauto
                    | intros Hne; try (by apply is_value_error_Raise); tauto]|]);
    (split; [auto|]);
    intros self calls [= <-]; rewrite ?after_calls_unpaired; by repeat split.
Qed.

Example paired_shapes_may_differ :
  exists self,
    AbstractPairedDataLoader_init [8; 8; 4]%Z [16; 16; 8]%Z (Some true)
      (Some SampleAll) None = Ok self
    /\ moving_image_shape self = Ok [8; 8; 4]%Z
    /\ fixed_image_shape self = Ok [16; 16; 8]%Z.
Proof. eexists. by repeat split. Qed.

Example unpaired_rejects_2d_shape :
  AbstractUnpairedDataLoader_init [8; 8]%Z (Some true) (Some SampleAll) None
  = Raise (ValueError ShapeLength).
Proof. reflexivity. Qed.

(** ** Datasets: batching and shuffling *)

Lemma div_mod_step (n size : nat) :
  0 < size -> size <= n ->
  n / size = S ((n - size) / size) /\ (n - size) mod size = n mod size.
Proof.
  intros Hsize Hge.
  assert (Hsplit : n = (n - size) + 1 * size) by lia.
  split.
  - rewrite Hsplit at 1. rewrite Nat.div_add by lia. lia.
  - rewrite Hsplit at 2. by rewrite Nat.Div0.mod_add.
Qed.

Lemma chunks_keep_or_drop {A : Type} (size fuel : nat) (l : list A) :
  0 < size -> length l <= fuel ->
  chunks size false l fuel
  = chunks size true l fuel
    ++ (if length l mod size =? 0 then []
        else [drop (length l / size * size) l]).
Proof.
  intros Hsize. revert l. induction fuel as [|fuel IH]; intros l Hlen.
  - destruct l; [|simpl in Hlen; lia]. simpl.
    by rewrite Nat.Div0.mod_0_l.
  - destruct l as [|x l]; [simpl; by rewrite Nat.Div0.mod_0_l|].
    cbn [chunks]. destruct (Nat.ltb_spec (length (x :: l)) size) as [Hlt|Hge].
    + rewrite Nat.mod_small, Nat.div_small by exact Hlt.
      destruct (Nat.eqb_spec (length (x :: l)) 0) as [H0|_];
        [simpl in H0; lia|]. reflexivity.
    + rewrite IH by (rewrite length_drop; lia).
      rewrite length_drop, drop_drop. cbn [app]. f_equal. f_equal.
      destruct (div_mod_step (length (x :: l)) size Hsize Hge) as [Hdiv Hmod].
      rewrite Hmod, Hdiv.
      destruct (_ =? 0); [reflexivity|]. f_equal.
Qed.

Lemma chunks_drop_full {A : Type} (size fuel : nat) (l : list A) :
  0 < size -> length l <= fuel ->
  Forall (fun b => length b = size) (chunks size true l fuel)
  /\ length (chunks size true l fuel) = length l / size
  /\ concat (chunks size true l fuel) = take (length l / size * size) l.
Proof.
  intros Hsize. revert l. induction fuel as [|fuel IH]; intros l Hlen.
  - destruct l; [|simpl in Hlen; lia]. simpl.
    rewrite Nat.Div0.div_0_l. by repeat split.
  - destruct l as [|x l];
      [simpl; rewrite Nat.Div0.div_0_l; by repeat split|].
    cbn [chunks]. destruct (Nat.ltb_spec (length (x :: l)) size) as [Hlt|Hge].
    + rewrite Nat.div_small by exact Hlt. by repeat split.
    + destruct (IH (drop size (x :: l))) as (Hfull & Hcount & Hconcat);
        [rewrite length_drop; lia|].
      rewrite length_drop in Hcount, Hconcat.
      destruct (div_mod_step (length (x :: l)) size Hsize Hge) as [Hdiv _].
      split; [|split].
      * constructor; [|exact Hfull]. rewrite length_take. lia.
      * simpl length at 1. rewrite Hcount. by rewrite Hdiv.
      * cbn [concat]. rewrite Hconcat, Hdiv.
        rewrite take_take_drop. f_equal.
Qed.

Lemma insert_Permutation_delete {A : Type} (l : list A) (i : nat) (x y : A) :
  l !! i = Some x -> <[i := y]> l ≡ₚ y :: delete i l.
Proof.
  intros Hx. rewrite insert_take_drop by (by eapply lookup_lt_Some).
  rewrite delete_take_drop. by rewrite Permutation_middle.
Qed.

Lemma shuffle_go_Permutation {A : Type} (rng : nat -> nat) (fuel step : nat)
    (buf rest : list A) :
  length buf + length rest <= fuel -> (buf = [] -> rest = []) ->
  shuffle_go rng step buf rest fuel ≡ₚ buf ++ rest.
Proof.
  revert step buf rest.
  induction fuel as [|fuel IH]; intros step buf rest Hfuel Hbuf.
  - destruct buf; [|simpl in Hfuel; lia]. by rewrite Hbuf.
  - cbn [shuffle_go].
    destruct buf as [|b buf']; [by rewrite Hbuf|].
    set (buf := b :: buf') in *.
    assert (Hi : rng step mod length buf < length buf)
      by (apply Nat.mod_upper_bound; simpl; lia).
    destruct (lookup_lt_is_Some_2 _ _ Hi) as [x Hx]. rewrite Hx.
    destruct rest as [|y rest'].
    + rewrite IH; [|rewrite length_delete by eauto; simpl in *; lia|done].
      rewrite !app_nil_r. symmetry. by apply delete_Permutation.
    + rewrite IH; cycle 1.
      { rewrite length_insert. simpl in *. lia. }
      { intros Hnil. apply (f_equal length) in Hnil.
        rewrite length_insert in Hnil. simpl in Hnil. lia. }
      rewrite (insert_Permutation_delete _ _ x y Hx).
      transitivity ((x :: delete (rng step mod length buf) buf) ++ y :: rest').
      * simpl. constructor. apply Permutation_middle.
      * apply Permutation_app_tail. symmetry. by apply delete_Permutation.
Qed.

Lemma shuffle_list_Permutation {A : Type} (rng : nat -> nat)
    (buffer_size : nat) (l : list A) :
  0 < buffer_size -> shuffle_list rng buffer_size l ≡ₚ l.
Proof.
  intros Hb. unfold shuffle_list.
  rewrite shuffle_go_Permutation.
  - by rewrite take_drop.
  - rewrite length_take, length_drop. lia.
  - intros Hnil. apply (f_equal length) in Hnil.
    rewrite length_take in Hnil. simpl in Hnil.
    apply length_zero_iff_nil. rewrite length_drop. lia.
Qed.

Lemma chunk_count_fits (len b n : nat) :
  0 < b -> len <= n * b ->
  len / b + (if len mod b =? 0 then 0 else 1) <= n.
Proof.
  intros Hb Hlen.
  pose proof (Nat.div_mod_eq len b) as Hdm.
  pose proof (Nat.mod_upper_bound len b) as Hr.
  destruct (Nat.eqb_spec (len mod b) 0) as [H0|Hne]; nia.
Qed.

Lemma batch_of_finite {A : Type} (b n : nat) (drop_remainder : bool)
    (xs : list A) :
  0 < b -> length xs <= n * b ->
  take n (chunks b drop_remainder (take (n * b) xs)
            (length (take (n * b) xs)))
  = chunks b drop_remainder xs (length xs).
Proof.
  intros Hb Hlen. rewrite (take_ge xs (n * b)) by exact Hlen.
  apply take_ge.
  pose proof (chunk_count_fits (length xs) b n Hb Hlen) as Hfit.
  destruct (chunks_drop_full b (length xs) xs Hb) as (_ & Hcount & _); [done|].
  destruct drop_remainder; [lia|].
  rewrite chunks_keep_or_drop, length_app, Hcount by done.
  destruct (_ =? 0); simpl; lia.
Qed.

Lemma chunks_of_multiple {A : Type} (b n : nat) (drop_remainder : bool)
    (xs : list A) :
  0 < b -> length xs = n * b ->
  chunks b drop_remainder xs (length xs) = chunks b true xs (length xs)
  /\ length (chunks b true xs (length xs)) = n
  /\ Forall (fun batch => length batch = b) (chunks b true xs (length xs)).
Proof.
  intros Hb Hlen.
  destruct (chunks_drop_full b (length xs) xs Hb) as (Hfull & Hcount & _);
    [done|].
  split; [|split; [|exact Hfull]].
  - destruct drop_remainder; [reflexivity|].
    rewrite chunks_keep_or_drop by done.
    rewrite Hlen, Nat.Div0.mod_mul. simpl. by rewrite app_nil_r.
  - rewrite Hcount, Hlen. apply Nat.div_mul. lia.
Qed.

Lemma repeat_go_length {A : Type} (d : Dataset A) (n fuel epoch : nat) :
  (fuel <> 0 -> forall e, d e n <> []) ->
  fuel <= length (repeat_go d epoch n fuel).
Proof.
  revert epoch. induction fuel as [|fuel IH]; intros epoch Hne; [simpl; lia|].
  cbn [repeat_go].
  destruct (d epoch n) as [|x xs] eqn:E; [by apply Hne in E|].
  rewrite length_app. simpl.
  assert (fuel <= length (repeat_go d (S epoch) n fuel)); [|lia].
  apply IH. intros _. by apply Hne.
Qed.

Lemma repeat_fills {A : Type} (d : Dataset A) (n epoch : nat) :
  (n <> 0 -> forall e, d e n <> []) ->
  length (ds_repeat d epoch n) = n.
Proof.
  intros Hne. unfold ds_repeat. rewrite length_take.
  pose proof (repeat_go_length d n n 0 Hne). lia.
Qed.

Section PreprocessFacts.

Variable resize_inputs : sample -> list Z -> list Z -> sample.
Variable affine_transform : list Z -> list Z -> Z -> list sample -> list sample.
Variable rng : nat -> nat -> nat.
Context `{DataLoaderInterface L}.

Variables (self : L) (l : list sample) (ms fs : list Z).
Hypothesis Hdataset : get_dataset self = Ok (from_list l).
Hypothesis Hmoving : moving_image_shape self = Ok ms.
Hypothesis Hfixed : fixed_image_shape self = Ok fs.

Variable batch_size : Z.
Hypothesis Hbatch : (0 < batch_size)%Z.

Let b : nat := Z.to_nat batch_size.
Let resized : list sample := map (fun x => resize_inputs x ms fs) l.

Lemma evaluation_batches_keep_remainder (shuffle_buffer_num_batch : Z) :
  exists d,
    get_dataset_and_preprocess resize_inputs affine_transform rng self
      false batch_size false shuffle_buffer_num_batch = Ok d
    /\ forall epoch n, length l <= n * b ->
         d epoch n = chunks b false resized (length l).
Proof.
  unfold get_dataset_and_preprocess.
  rewrite Hdataset, Hmoving, Hfixed. cbn [bind andb].
  unfold ds_batch. destruct (Z.leb_spec batch_size 0) as [|_]; [lia|].
  cbn [bind]. eexists. split; [reflexivity|].
  intros epoch n Hn. unfold ds_prefetch, ds_map, from_list.
  fold b. rewrite fmap_take. fold resized.
  rewrite batch_of_finite; [|lia|].
  - unfold resized. by rewrite length_map.
  - unfold resized. by rewrite length_map.
Qed.

Lemma training_batches_drop_remainder (shuffle_buffer_num_batch : Z) :
  exists d,
    get_dataset_and_preprocess resize_inputs affine_transform rng self
      true batch_size false shuffle_buffer_num_batch = Ok d
    /\ forall epoch n, length l <= n * b ->
         exists shuffled,
           shuffled ≡ₚ resized
           /\ ((shuffle_buffer_num_batch <= 0)%Z -> shuffled = resized)
           /\ d epoch n
              = map (affine_transform ms fs batch_size)
                  (chunks b true shuffled (length l)).
Proof.
  unfold get_dataset_and_preprocess.
  rewrite Hdataset, Hmoving, Hfixed. cbn [bind andb].
  destruct (Z.ltb_spec 0 shuffle_buffer_num_batch) as [Hpos|Hnonpos].
  - unfold ds_shuffle.
    destruct (Z.leb_spec (batch_size * shuffle_buffer_num_batch) 0) as [|_];
      [nia|]. cbn [bind].
    unfold ds_batch. destruct (Z.leb_spec batch_size 0) as [|_]; [lia|].
    cbn [bind]. eexists. split; [reflexivity|].
    intros epoch n Hn.
    set (s := Z.to_nat (batch_size * shuffle_buffer_num_batch)).
    exists (shuffle_list (rng epoch) s resized).
    assert (Hperm : shuffle_list (rng epoch) s resized ≡ₚ resized).
    { apply shuffle_list_Permutation. unfold s. nia. }
    split; [exact Hperm|]. split; [lia|].
    unfold ds_prefetch, ds_map, from_list. fold b. f_equal.
    rewrite (take_ge l) by lia. fold resized.
    rewrite batch_of_finite.
    + rewrite (Permutation_length Hperm). unfold resized.
      by rewrite length_map.
    + lia.
    + rewrite (Permutation_length Hperm). unfold resized.
      by rewrite length_map.
  - unfold ds_batch. destruct (Z.leb_spec batch_size 0) as [|_]; [lia|].
    cbn [bind]. eexists. split; [reflexivity|].
    intros epoch n Hn. exists resized.
    split; [reflexivity|]. split; [reflexivity|].
    unfold ds_prefetch, ds_map, from_list. fold b. f_equal.
    rewrite fmap_take. fold resized.
    rewrite batch_of_finite; [|lia|].
    + unfold resized. by rewrite length_map.
    + unfold resized. by rewrite length_map.
Qed.

Lemma repeated_batches_full (training : bool) (shuffle_buffer_num_batch : Z) :
  l <> [] ->
  exists d,
    get_dataset_and_preprocess resize_inputs affine_transform rng self
      training batch_size true shuffle_buffer_num_batch = Ok d
    /\ forall epoch n,
         exists batches,
           d epoch n
           = (if training
              then map (affine_transform ms fs batch_size) batches
              else batches)
           /\ length batches = n
           /\ Forall (fun batch => length batch = b) batches.
Proof.
  intros Hl.
  assert (Hresized : forall k, k <> 0 ->
            map (fun x => resize_inputs x ms fs) (take k l) <> []).
  { intros k Hk. destruct l, k; done. }
  unfold get_dataset_and_preprocess.
  rewrite Hdataset, Hmoving, Hfixed. cbn [bind].
  destruct (training && (0 <? shuffle_buffer_num_batch)%Z) eqn:Hshuffle.
  - apply andb_prop in Hshuffle as [-> Hpos]. apply Z.ltb_lt in Hpos.
    unfold ds_shuffle.
    destruct (Z.leb_spec (batch_size * shuffle_buffer_num_batch) 0) as [|_];
      [nia|]. cbn [bind].
    unfold ds_batch. destruct (Z.leb_spec batch_size 0) as [|_]; [lia|].
    cbn [bind].
    eexists. split; [reflexivity|].
    intros epoch n. unfold ds_prefetch, ds_map at 1. fold b.
    set (s := Z.to_nat (batch_size * shuffle_buffer_num_batch)).
    set (d := fun (e k : nat) =>
                take k (shuffle_list (rng e) s
                          (ds_map (fun x => resize_inputs x ms fs)
                             (from_list l) e (k + s)))).
    assert (Hlen : length (ds_repeat d epoch (n * b)) = n * b).
    { apply repeat_fills. intros Hk e. unfold d, ds_map, from_list.
      assert (Hs : 0 < s) by (unfold s; nia).
      pose proof (shuffle_list_Permutation (rng e) s
                    (map (fun x => resize_inputs x ms fs)
                       (take (n * b + s) l)) Hs) as Hperm.
      intros Hnil. apply (f_equal length) in Hnil.
      rewrite length_take, (Permutation_length Hperm) in Hnil.
      specialize (Hresized (n * b + s)).
      destruct (map _ (take (n * b + s) l)); [apply Hresized; [lia|done]|].
      simpl in Hnil. lia. }
    assert (Hb : 0 < b) by (unfold b; lia).
    destruct (chunks_of_multiple b n true _ Hb Hlen) as (_ & Hcount & Hfull).
    exists (chunks b true (ds_repeat d epoch (n * b))
              (length (ds_repeat d epoch (n * b)))).
    split; [|by split].
    f_equal. apply take_ge. by rewrite Hcount.
  - unfold ds_batch. destruct (Z.leb_spec batch_size 0) as [|_]; [lia|].
    cbn [bind].
    set (d := ds_map (fun x => resize_inputs x ms fs) (from_list l)).
    assert (Hlen : forall epoch n, length (ds_repeat d epoch (n * b)) = n * b).
    { intros epoch n. apply repeat_fills. intros Hk e.
      unfold d, ds_map, from_list. by apply Hresized. }
    assert (Hb : 0 < b) by (unfold b; lia).
    destruct training.
    + cbn [bind]. eexists. split; [reflexivity|].
      intros epoch n. unfold ds_prefetch, ds_map at 1. fold b.
      destruct (chunks_of_multiple b n true _ Hb (Hlen epoch n))
        as (_ & Hcount & Hfull).
      exists (chunks b true (ds_repeat d epoch (n * b))
                (length (ds_repeat d epoch (n * b)))).
      split; [|by split].
      f_equal. apply take_ge. by rewrite Hcount.
    + eexists. split; [reflexivity|].
      intros epoch n. unfold ds_prefetch. fold b.
      destruct (chunks_of_multiple b n false _ Hb (Hlen epoch n))
        as (Hsame & Hcount & Hfull).
      exists (chunks b true (ds_repeat d epoch (n * b))
                (length (ds_repeat d epoch (n * b)))).
      split; [|by split].
      rewrite Hsame. apply take_ge. by rewrite Hcount.
Qed.

End PreprocessFacts.

(** ** C5: the trailing partial batch *)

(** C5: on a loader whose dataset is the finite list [l], with a positive
    batch size [b] and without [repeat], evaluation ([training = False])
    yields the full batches of the resized samples followed by the
    trailing batch of [length l mod b] samples when that number is not
    zero, so that no sample is lost; training yields only the full
    batches, [length l / b] of them, of the (possibly shuffled) resized
    samples, each passed through the affine transform.  With [repeat] on a
    non-empty dataset every batch is full in both modes.  [n] is the
    number of batches requested from a traversal. *)
Theorem batch_drops_remainder_iff_training `{DataLoaderInterface L}
    (resize_inputs : sample -> list Z -> list Z -> sample)
    (affine_transform : list Z -> list Z -> Z -> list sample -> list sample)
    (rng : nat -> nat -> nat)
    (self : L) (l : list sample) (ms fs : list Z)
    (batch_size shuffle_buffer_num_batch : Z) :
  get_dataset self = Ok (from_list l) ->
  moving_image_shape self = Ok ms ->
  fixed_image_shape self = Ok fs ->
  (0 < batch_size)%Z ->
  let b := Z.to_nat batch_size in
  let resized := map (fun x => resize_inputs x ms fs) l in
  (exists d,
     get_dataset_and_preprocess resize_inputs affine_transform rng self
       false batch_size false shuffle_buffer_num_batch = Ok d
     /\ forall epoch n, length l <= n * b ->
          d epoch n
          = chunks b true resized (length l)
            ++ (if length l mod b =? 0 then []
                else [drop (length l / b * b) resized])
          /\ concat (d epoch n) = resized)
  /\ (exists d,
        get_dataset_and_preprocess resize_inputs affine_transform rng self
          true batch_size false shuffle_buffer_num_batch = Ok d
        /\ forall epoch n, length l <= n * b ->
             exists shuffled,
               shuffled ≡ₚ resized
               /\ ((shuffle_buffer_num_batch <= 0)%Z -> shuffled = resized)
               /\ d epoch n
                  = map (affine_transform ms fs batch_size)
                      (chunks b true shuffled (length l))
               /\ length (d epoch n) = length l / b)
  /\ (forall xs : list sample,
        length xs = length l ->
        Forall (fun batch => length batch = b) (chunks b true xs (length l))
        /\ length (chunks b true xs (length l)) = length l / b
        /\ concat (chunks b true xs (length l)) = take (length l / b * b) xs
        /\ length (drop (length l / b * b) xs) = length l mod b
        /\ length l mod b < b)
  /\ (l <> [] ->
      forall training,
        exists d,
          get_dataset_and_preprocess resize_inputs affine_transform rng self
            training batch_size true shuffle_buffer_num_batch = Ok d
          /\ forall epoch n,
               exists batches,
                 d epoch n
                 = (if training
                    then map (affine_transform ms fs batch_size) batches
                    else batches)
                 /\ length batches = n
                 /\ Forall (fun batch => length batch = b) batches).
Proof.
  intros Hdataset Hmoving Hfixed Hbatch b resized.
  assert (Hb : 0 < b) by (unfold b; lia).
  assert (Hchunks : forall xs : list sample,
            length xs = length l ->
            Forall (fun batch => length batch = b) (chunks b true xs (length l))
            /\ length (chunks b true xs (length l)) = length l / b
            /\ concat (chunks b true xs (length l)) = take (length l / b * b) xs
            /\ length (drop (length l / b * b) xs) = length l mod b
            /\ length l mod b < b).
  { intros xs Hxs. rewrite <- Hxs.
    destruct (chunks_drop_full b (length xs) xs Hb) as (Hfull & Hcount & Hcat);
      [done|].
    repeat split; try done.
    - rewrite length_drop. pose proof (Nat.div_mod_eq (length xs) b). lia.
    - by apply Nat.mod_upper_bound, Nat.neq_0_lt_0. }
  assert (Hresized : length resized = length l)
    by (unfold resized; by rewrite length_map).
  split; [|split; [|split]].
  - destruct (evaluation_batches_keep_remainder resize_inputs affine_transform
                rng self l ms fs Hdataset Hmoving Hfixed batch_size Hbatch
                shuffle_buffer_num_batch) as (d & Hd & Heval).
    exists d. split; [exact Hd|]. intros epoch n Hn.
    rewrite (Heval epoch n Hn). fold b resized.
    assert (Hsplit : chunks b false resized (length l)
                     = chunks b true resized (length l)
                       ++ (if length l mod b =? 0 then []
                           else [drop (length l / b * b) resized])).
    { rewrite <- Hresized. apply chunks_keep_or_drop; done. }
    rewrite Hsplit. split; [reflexivity|].
    destruct (Hchunks resized Hresized) as (_ & _ & Hcat & Hrest & _).
    rewrite concat_app, Hcat.
    destruct (Nat.eqb_spec (length l mod b) 0) as [H0|Hne].
    + simpl. rewrite app_nil_r. apply take_ge.
      pose proof (Nat.div_mod_eq (length l) b). lia.
    + simpl. rewrite app_nil_r. apply take_drop.
  - destruct (training_batches_drop_remainder resize_inputs affine_transform
                rng self l ms fs Hdataset Hmoving Hfixed batch_size Hbatch
                shuffle_buffer_num_batch) as (d & Hd & Htrain).
    exists d. split; [exact Hd|]. intros epoch n Hn.
    destruct (Htrain epoch n Hn) as (shuffled & Hperm & Hsame & Hbatches).
    exists shuffled. fold b resized in Hperm, Hsame, Hbatches.
    split; [exact Hperm|]. split; [exact Hsame|]. split; [exact Hbatches|].
    rewrite Hbatches, length_map.
    apply Hchunks. by rewrite (Permutation_length Hperm).
  - exact Hchunks.
  - intros Hl training.
    exact (repeated_batches_full resize_inputs affine_transform rng self l
             ms fs Hdataset Hmoving Hfixed batch_size Hbatch training
             shuffle_buffer_num_batch Hl).
Qed.

Lemma three_pairs_dataset :
  get_dataset three_pairs_loader
  = Ok (from_list three_records).
Proof. reflexivity. Qed.

Lemma batch_drops_remainder_iff_training_witness :
  let l := three_records in
  let b := Z.to_nat 2 in
  let resized := map (fun x => keep_size x [1; 1; 1]%Z [1; 1; 1]%Z) l in
  (exists d,
     get_dataset_and_preprocess keep_size keep_batch first_slot
       three_pairs_loader false 2 false 1 = Ok d
     /\ forall epoch n, length l <= n * b ->
          d epoch n
          = chunks b true resized (length l)
            ++ (if length l mod b =? 0 then []
                else [drop (length l / b * b) resized])
          /\ concat (d epoch n) = resized)
  /\ (exists d,
        get_dataset_and_preprocess keep_size keep_batch first_slot
          three_pairs_loader true 2 false 1 = Ok d
        /\ forall epoch n, length l <= n * b ->
             exists shuffled,
               shuffled ≡ₚ resized
               /\ ((1 <= 0)%Z -> shuffled = resized)
               /\ d epoch n
                  = map (keep_batch [1; 1; 1]%Z [1; 1; 1]%Z 2)
                      (chunks b true shuffled (length l))
               /\ length (d epoch n) = length l / b)
  /\ (forall xs : list sample,
        length xs = length l ->
        Forall (fun batch => length batch = b) (chunks b true xs (length l))
        /\ length (chunks b true xs (length l)) = length l / b
        /\ concat (chunks b true xs (length l)) = take (length l / b * b) xs
        /\ length (drop (length l / b * b) xs) = length l mod b
        /\ length l mod b < b)
  /\ (l <> [] ->
      forall training,
        exists d,
          get_dataset_and_preprocess keep_size keep_batch first_slot
            three_pairs_loader training 2 true 1 = Ok d
          /\ forall epoch n,
               exists batches,
                 d epoch n
                 = (if training
                    then map (keep_batch [1; 1; 1]%Z [1; 1; 1]%Z 2) batches
                    else batches)
                 /\ length batches = n
                 /\ Forall (fun batch => length batch = b) batches).
Proof.
  apply (batch_drops_remainder_iff_training keep_size keep_batch first_slot
           three_pairs_loader three_records
           [1; 1; 1]%Z [1; 1; 1]%Z 2 1).
  - reflexivity.
  - reflexivity.
  - reflexivity.
  - lia.
Defined.

Example three_samples_in_batches_of_two :
  batch_sizes (get_dataset_and_preprocess keep_size keep_batch first_slot
                 three_pairs_loader true 2 false 1) 5 = Ok [2]
  /\ batch_sizes (get_dataset_and_preprocess keep_size keep_batch first_slot
                    three_pairs_loader false 2 false 1) 5 = Ok [2; 1]
  /\ batch_sizes (get_dataset_and_preprocess keep_size keep_batch first_slot
                    three_pairs_loader false 2 true 1) 4 = Ok [2; 2; 2; 2].
Proof. vm_compute. by repeat split. Qed.

(** ** C4: parameter checks in get_dataset_and_preprocess *)



Example training_with_batch_size_0_or_minus_1 :
  get_dataset_and_preprocess keep_size keep_batch first_slot
    three_pairs_loader true 0 false 1 = Raise InvalidArgumentError
  /\ get_dataset_and_preprocess keep_size keep_batch first_slot
       three_pairs_loader true (-1) false 0
     = Raise (ValueError NegativeDimension)
  /\ batch_sizes (get_dataset_and_preprocess keep_size keep_batch first_slot
                    three_pairs_loader true 2 false (-1)) 5 = Ok [2].
Proof. vm_compute. by repeat split. Qed.
(* ===================================================================== *)
(** * Further properties of the loaders *)

(** ** Validation treats the moving and the fixed side alike *)

Lemma validation_failure_swap
    (moving_image fixed_image moving_label fixed_label : option ndarray) :
  validation_failure moving_image fixed_image moving_label fixed_label
  \/ some_zero_size moving_image fixed_image moving_label fixed_label ->
  validation_failure fixed_image moving_image fixed_label moving_label
  \/ some_zero_size fixed_image moving_image fixed_label moving_label.
Proof.
  destruct moving_image as [mi|], fixed_image as [fi|],
    moving_label as [ml|], fixed_label as [fl|];
    unfold_failure; simpl;
    intros H; decompose [or and ex] H; clear H; simplify_eq;
    try tauto; try congruence;
    try (left; do 5 right; eexists _, _;
         split; [reflexivity|split; [reflexivity|congruence]]);
    try (left; right; left; discriminate).
Qed.

(** X1: Swapping the moving and the fixed arguments changes neither whether
    [validate_images_and_labels] raises nor whether it returns. *)
Theorem validate_images_and_labels_symmetric
    (moving_image fixed_image moving_label fixed_label : option ndarray)
    (indices1 indices2 : list Z) :
  (is_value_error (validate_images_and_labels moving_image fixed_image
                     moving_label fixed_label indices1)
   <-> is_value_error (validate_images_and_labels fixed_image moving_image
                         fixed_label moving_label indices2))
  /\ (returns (validate_images_and_labels moving_image fixed_image
                 moving_label fixed_label indices1)
      <-> returns (validate_images_and_labels fixed_image moving_image
                     fixed_label moving_label indices2)).
Proof.
  destruct (validate_trichotomy moving_image fixed_image moving_label
              fixed_label indices1) as [Hiff1 Hcases1].
  destruct (validate_trichotomy fixed_image moving_image fixed_label
              moving_label indices2) as [Hiff2 Hcases2].
  assert (Herr : is_value_error (validate_images_and_labels moving_image
                   fixed_image moving_label fixed_label indices1)
                 <-> is_value_error (validate_images_and_labels fixed_image
                       moving_image fixed_label moving_label indices2)).
  { rewrite Hiff1, Hiff2. split; apply validation_failure_swap. }
  split; [exact Herr|].
  split; intros [ws Hws].
  - destruct Hcases2 as [Hret|He]; [exact Hret|].
    apply Herr in He. rewrite Hws in He. by apply not_value_error_Ok in He.
  - destruct Hcases1 as [Hret|He]; [exact Hret|].
    apply Herr in He. rewrite Hws in He. by apply not_value_error_Ok in He.
Qed.

(** ** Shape warnings *)

Lemma take_all_dims (a : ndarray) : ndim a = 3 -> take 3 (shape a) = shape a.
Proof. intros Hd. apply take_ge. unfold ndim in Hd. lia. Qed.

(** X2: When validation returns, what it logged tells exactly which label
    differs from its image in the first three dimensions: nothing is
    logged for unlabeled input, and for labeled input one warning per side
    whose label shape (without the channel axis) is not the image shape,
    the moving side first. *)
Theorem validate_images_and_labels_warnings
    (moving_image fixed_image moving_label fixed_label : option ndarray)
    (image_indices : list Z) (ws : list warning) :
  validate_images_and_labels moving_image fixed_image moving_label
    fixed_label image_indices = Ok ws ->
  exists mi fi,
    moving_image = Some mi /\ fixed_image = Some fi
    /\ (moving_label = None -> ws = [])
    /\ (forall m f, moving_label = Some m -> fixed_label = Some f ->
          (MovingShapesDiffer (shape mi) (shape m) ∈ ws
           <-> shape mi <> take 3 (shape m))
          /\ (FixedShapesDiffer (shape fi) (shape f) ∈ ws
              <-> shape fi <> take 3 (shape f))
          /\ (ws = [] <-> shape mi = take 3 (shape m)
                          /\ shape fi = take 3 (shape f))
          /\ length ws <= 2).
Proof.
  intros Hws.
  assert (Hret : returns (validate_images_and_labels moving_image fixed_image
                            moving_label fixed_label image_indices))
    by (by exists ws).
  destruct (validate_returns_images _ _ _ _ _ Hret)
    as (mi & fi & -> & -> & Hmi & Hfi & Hboth).
  exists mi, fi. split; [reflexivity|]. split; [reflexivity|]. split.
  - intros ->. destruct fixed_label; [discriminate|].
    revert Hws. unfold validate_images_and_labels. cbn [is_none eqb negb].
    destruct (for_each check_range _); cbn [bind]; [|discriminate].
    destruct (for_each check_image_dim _); cbn [bind]; [|discriminate].
    by intros [= <-].
  - intros m f -> ->.
    rewrite (validate_returns_warnings mi fi m f image_indices Hret) in Hws.
    injection Hws as <-. unfold shape_warnings.
    rewrite (take_all_dims mi Hmi), (take_all_dims fi Hfi).
    destruct (bool_decide_reflect (shape mi = take 3 (shape m))) as [Em|Em];
      destruct (bool_decide_reflect (shape fi = take 3 (shape f))) as [Ef|Ef];
      simpl; rewrite ?elem_of_cons, ?elem_of_nil;
      repeat split; try (intros; tauto); try lia; try discriminate;
      try (intros [? ?]; done); try (intros; by left);
      try (intros; right; by left);
      try (intros [?|?]; done); try (intros [?|[?|?]]; done).
Qed.

Lemma validate_images_and_labels_warnings_witness :
  exists mi fi,
    Some black_voxel = Some mi /\ Some white_voxel = Some fi
    /\ (Some one_channel_label = None
        -> [FixedShapesDiffer [1; 1; 1] [1; 1; 2]] = [])
    /\ (forall m f, Some one_channel_label = Some m -> Some deep_label = Some f ->
          (MovingShapesDiffer (shape mi) (shape m)
             ∈ [FixedShapesDiffer [1; 1; 1] [1; 1; 2]]
           <-> shape mi <> take 3 (shape m))
          /\ (FixedShapesDiffer (shape fi) (shape f)
                ∈ [FixedShapesDiffer [1; 1; 1] [1; 1; 2]]
              <-> shape fi <> take 3 (shape f))
          /\ ([FixedShapesDiffer [1; 1; 1] [1; 1; 2]] = []
              <-> shape mi = take 3 (shape m)
                  /\ shape fi = take 3 (shape f))
          /\ length [FixedShapesDiffer [1; 1; 1] [1; 1; 2]] <= 2).
Proof.
  apply (validate_images_and_labels_warnings (Some black_voxel)
           (Some white_voxel) (Some one_channel_label) (Some deep_label)
           [0%Z]).
  vm_compute. reflexivity.
Defined.
(** ** What every yielded record looks like *)

(** After a successful validation no supplied array is empty, and none
    fails the range check. *)
Lemma validate_returns_clean
    (moving_image fixed_image moving_label fixed_label : option ndarray)
    (image_indices : list Z) :
  returns (validate_images_and_labels moving_image fixed_image
             moving_label fixed_label image_indices) ->
  Forall (fun a => ~ zero_size a /\ ~ fails_range_check a)
    (supplied [moving_image; fixed_image; moving_label; fixed_label]).
Proof.
  intros [ws Hws].
  destruct (validate_trichotomy moving_image fixed_image moving_label
              fixed_label image_indices) as [Hiff _].
  rewrite Hws in Hiff.
  apply Forall_forall. intros a Ha. split.
  - intros Hz. apply (not_value_error_Ok ws), Hiff. right.
    apply Exists_exists. eauto.
  - intros Ho. apply (not_value_error_Ok ws), Hiff. left. do 2 right. left.
    apply Exists_exists. eauto.
Qed.

Lemma elem_of_drop_inv {A : Type} (k : nat) (l : list A) (x : A) :
  x ∈ drop k l -> x ∈ l.
Proof.
  revert k. induction l as [|y l IH]; intros [|k]; simpl; try done.
  intros H. right. by apply (IH k).
Qed.

Lemma strided_subset (n k rows : nat) (l : list spec_float) (x : spec_float) :
  x ∈ strided n k l rows -> x ∈ l.
Proof.
  revert l. induction rows as [|rows IH]; intros l; simpl.
  - intros H. by apply elem_of_nil in H.
  - destruct (drop k l) as [|y t] eqn:E; [intros H; by apply elem_of_nil in H|].
    rewrite elem_of_cons. intros [->|H].
    + apply (elem_of_drop_inv k). rewrite E. by left.
    + apply IH in H. by apply elem_of_drop_inv in H.
Qed.

Lemma index_last_in_range (a s : ndarray) (k : nat) :
  index_last a k = Ok s -> ~ out_of_range a -> ~ out_of_range s.
Proof.
  unfold index_last. destruct (last (shape a)) as [n|]; [|discriminate].
  destruct (k <? n); [|discriminate]. intros [= <-] Ha Hs. apply Ha.
  unfold out_of_range in *. simpl in Hs.
  apply Exists_exists in Hs as (x & Hx & Hbad).
  apply Exists_exists. exists x. split; [|exact Hbad].
  by apply strided_subset in Hx.
Qed.

Lemma yield_each_elem {A B : Type} (body : A -> result B) (xs : list A)
    (r : B) :
  r ∈ fst (yield_each body xs) -> exists x, x ∈ xs /\ body x = Ok r.
Proof.
  induction xs as [|x xs IH]; simpl.
  - intros H. by apply elem_of_nil in H.
  - destruct (body x) as [b|e] eqn:E; simpl;
      [|intros H; by apply elem_of_nil in H].
    rewrite elem_of_cons. intros [->|H].
    + exists x. split; [by left|exact E].
    + apply IH in H as (y & Hy & Hb). exists y. split; [by right|exact Hb].
Qed.

Lemma indices_of_Ok (image_indices : list Z) (label_index : Z) (v : value) :
  indices_of image_indices label_index = Ok v ->
  v = float32_indices image_indices label_index.
Proof.
  unfold indices_of, asarray_float32, float32_indices.
  destruct (forallb fits_float _); [|discriminate]. by intros [= <-].
Qed.

(** The shape of a yielded record, whatever the input and the policy. *)
Lemma sample_image_label_record_cases
    (sample_label : option label_policy) (draw : nat)
    (moving_image fixed_image moving_label fixed_label : option ndarray)
    (image_indices : list Z) (r : sample) :
  r ∈ yielded (sample_image_label sample_label draw moving_image fixed_image
                 moving_label fixed_label image_indices) ->
  returns (validate_images_and_labels moving_image fixed_image moving_label
             fixed_label image_indices)
  /\ ((moving_label = None
       /\ r = unlabeled_sample moving_image fixed_image
                (float32_indices image_indices (-1)))
      \/ (exists m f,
            moving_label = Some m /\ fixed_label = Some f /\ ndim m <> 4
            /\ r = labeled_sample moving_image fixed_image
                     (float32_indices image_indices 0) (VArray m) (VArray f))
      \/ (exists m f c mc fc,
            moving_label = Some m /\ fixed_label = Some f /\ ndim m = 4
            /\ index_last m c = Ok mc /\ index_last f c = Ok fc
            /\ r = labeled_sample moving_image fixed_image
                     (float32_indices image_indices (Z.of_nat c))
                     (VArray mc) (VArray fc))).
Proof.
  unfold sample_image_label, yielded.
  destruct (validate_images_and_labels _ _ _ _ _) as [ws|e] eqn:Hws; simpl;
    [|intros H; by apply elem_of_nil in H].
  assert (Hret : returns (validate_images_and_labels moving_image fixed_image
                            moving_label fixed_label image_indices))
    by (by exists ws).
  destruct (validate_returns_images _ _ _ _ _ Hret)
    as (mi & fi & -> & -> & _ & _ & Hboth).
  intros Hr. split; [by exists ws|].
  destruct moving_label as [m|]; cycle 1.
  { left. destruct (indices_of image_indices (-1)) as [v|e] eqn:Hv;
      simpl in Hr; [|by apply elem_of_nil in Hr].
    apply indices_of_Ok in Hv as ->.
    apply list_elem_of_singleton in Hr. by split. }
  destruct fixed_label as [f|]; [|discriminate]. right.
  destruct (Nat.eqb_spec (ndim m) 4) as [H4|H4]; cycle 1.
  { left. destruct (indices_of image_indices 0) as [v|e] eqn:Hv;
      simpl in Hr; [|by apply elem_of_nil in Hr].
    apply indices_of_Ok in Hv as ->.
    apply list_elem_of_singleton in Hr. by exists m, f. }
  right.
  destruct (bind _ _) as [label_indices|e]; simpl in Hr;
    [|by apply elem_of_nil in Hr].
  apply yield_each_elem in Hr as (c & _ & Hc).
  destruct (indices_of image_indices (Z.of_nat c)) as [v|] eqn:Hv;
    [|discriminate].
  apply indices_of_Ok in Hv as ->. simpl in Hc.
  destruct (index_last m c) as [mc|] eqn:Hm; [|discriminate].
  simpl in Hc. destruct (index_last f c) as [fc|] eqn:Hf; [|discriminate].
  simpl in Hc. injection Hc as <-. by exists m, f, c, mc, fc.
Qed.

(** X3: Every record [sample_image_label] yields holds the two images it was
    given, as indices the binary32 vector of [image_indices] and one label
    index, and either both labels or none (none exactly with the label
    index -1).  Neither image fails the range check; and when the labels
    hold no NaN, no array of the record fails it. *)
Theorem sample_image_label_records_are_sound
    (sample_label : option label_policy) (draw : nat)
    (moving_image fixed_image moving_label fixed_label : option ndarray)
    (image_indices : list Z) (r : sample) :
  r ∈ yielded (sample_image_label sample_label draw moving_image fixed_image
                 moving_label fixed_label image_indices) ->
  (exists mi fi label_index,
     moving_image = Some mi /\ fixed_image = Some fi
     /\ r !! "moving_image" = Some (VArray mi)
     /\ r !! "fixed_image" = Some (VArray fi)
     /\ ~ fails_range_check mi /\ ~ fails_range_check fi
     /\ r !! "indices" = Some (float32_indices image_indices label_index)
     /\ ((label_index = (-1)%Z /\ moving_label = None
          /\ r !! "moving_label" = None /\ r !! "fixed_label" = None)
         \/ ((0 <= label_index)%Z /\ moving_label <> None
             /\ exists lm lf, r !! "moving_label" = Some (VArray lm)
                              /\ r !! "fixed_label" = Some (VArray lf))))
  /\ (Forall (fun a => ~ has_nan a) (supplied [moving_label; fixed_label]) ->
      forall key a, r !! key = Some (VArray a) -> ~ fails_range_check a).
Proof.
  intros Hr.
  apply sample_image_label_record_cases in Hr as [Hret Hcases].
  destruct (validate_returns_images _ _ _ _ _ Hret)
    as (mi & fi & -> & -> & _ & _ & _).
  pose proof (validate_returns_clean _ _ _ _ _ Hret) as Hclean.
  destruct Hcases as [[-> ->] | [(m & f & -> & -> & _ & ->)
                                | (m & f & c & mc & fc & -> & -> & _
                                   & Hmc & Hfc & ->)]].
  - destruct fixed_label as [f|];
      repeat (rewrite supplied_Some in Hclean || rewrite supplied_None in Hclean);
      rewrite ?Forall_cons in Hclean.
    all: split;
      [exists mi, fi, (-1)%Z; repeat split; try tauto; left; by repeat split|].
    all: intros _ key a; unfold unlabeled_sample;
      rewrite !lookup_insert_Some, lookup_singleton_Some; simpl;
      intros H; decompose [or and] H; simplify_eq; tauto.
  - rewrite !supplied_Some, !Forall_cons in Hclean. split.
    + exists mi, fi, 0%Z. repeat split; try tauto. right.
      split; [lia|]. split; [done|]. by exists m, f.
    + intros _ key a. unfold labeled_sample.
      rewrite !lookup_insert_Some, lookup_singleton_Some. simpl.
      intros H; decompose [or and] H; simplify_eq; tauto.
  - rewrite !supplied_Some, !Forall_cons in Hclean. split.
    + exists mi, fi, (Z.of_nat c). repeat split; try tauto. right.
      split; [lia|]. split; [done|]. by exists mc, fc.
    + rewrite !supplied_Some, !Forall_cons. intros (Hnm & Hnf & _).
      assert (~ out_of_range mc).
      { eapply index_last_in_range; [exact Hmc|].
        unfold fails_range_check in Hclean. tauto. }
      assert (~ out_of_range fc).
      { eapply index_last_in_range; [exact Hfc|].
        unfold fails_range_check in Hclean. tauto. }
      intros key a. unfold labeled_sample.
      rewrite !lookup_insert_Some, lookup_singleton_Some. simpl.
      intros H'; decompose [or and] H'; simplify_eq;
        unfold fails_range_check in *; tauto.
Qed.

Lemma sample_image_label_records_are_sound_witness :
  (exists mi fi label_index,
     Some black_voxel = Some mi /\ Some white_voxel = Some fi
     /\ voxel_pair_record !! "moving_image" = Some (VArray mi)
     /\ voxel_pair_record !! "fixed_image" = Some (VArray fi)
     /\ ~ fails_range_check mi /\ ~ fails_range_check fi
     /\ voxel_pair_record !! "indices"
        = Some (float32_indices [4%Z] label_index)
     /\ ((label_index = (-1)%Z /\ @None ndarray = None
          /\ voxel_pair_record !! "moving_label" = None
          /\ voxel_pair_record !! "fixed_label" = None)
         \/ ((0 <= label_index)%Z /\ @None ndarray <> None
             /\ exists lm lf,
                  voxel_pair_record !! "moving_label" = Some (VArray lm)
                  /\ voxel_pair_record !! "fixed_label" = Some (VArray lf))))
  /\ (Forall (fun a => ~ has_nan a) (supplied [@None ndarray; @None ndarray]) ->
      forall key a, voxel_pair_record !! key = Some (VArray a)
                    -> ~ fails_range_check a).
Proof.
  apply (sample_image_label_records_are_sound (Some SampleAll) 0
           (Some black_voxel) (Some white_voxel) None None [4%Z]
           voxel_pair_record).
  replace (sample_image_label (Some SampleAll) 0 (Some black_voxel)
             (Some white_voxel) None None [4%Z])
    with ([voxel_pair_record], @None exn) by (vm_compute; reflexivity).
  apply list_elem_of_here.
Defined.

(** A record may hold a NaN next to a value above 1: such an image passes
    the range check. *)
Example nan_volume_is_yielded :
  yielded (sample_image_label (Some SampleAll) 0 (Some nan_volume)
             (Some black_voxel) None None [4%Z])
  = [unlabeled_sample (Some nan_volume) (Some black_voxel)
       (float32_indices [4%Z] (-1))]
  /\ out_of_range nan_volume /\ ~ fails_range_check nan_volume.
Proof.
  split; [vm_compute; reflexivity|]. split.
  - apply Exists_cons_tl, Exists_cons_hd. by right.
  - intros [Hnan _]. apply Hnan. apply list_elem_of_here.
Qed.

(** ** The loop over the selected channels *)

Lemma yield_each_stops {A B : Type} (body : A -> result B) (g : A -> B)
    (good : list A) (bad : A) (rest : list A) (e : exn) :
  (forall x, x ∈ good -> body x = Ok (g x)) ->
  body bad = Raise e ->
  yield_each body (good ++ bad :: rest) = (map g good, Some e).
Proof.
  intros Hgood Hbad. induction good as [|x good IH]; simpl.
  - by rewrite Hbad.
  - rewrite Hgood by apply list_elem_of_here.
    rewrite IH; [reflexivity|].
    intros y Hy. apply Hgood. by apply list_elem_of_further.
Qed.

(** X4: On a validated input with a 4-D moving label of [n] channels,
    [sample_image_label] yields one record per label index that
    [get_label_indices] selected, in that order, as long as the indices are
    below [n]; at the first index that is not, indexing the label raises
    [IndexError] and the generator stops there, after the records of the
    indices before it.  This is so when the image indices and the selected
    label indices convert to floats; with an image index that does not,
    the first selected label index already ends the generator with
    [OverflowError]. *)
Theorem sample_image_label_follows_label_indices
    (sample_label : option label_policy) (draw : nat)
    (moving_image fixed_image fixed_label : option ndarray) (m : ndarray)
    (image_indices : list Z) (n : nat) (good tail : list nat) :
  returns (validate_images_and_labels moving_image fixed_image (Some m)
             fixed_label image_indices) ->
  ndim m = 4 -> shape m !! 3 = Some n ->
  well_formed m -> (forall f, fixed_label = Some f -> well_formed f) ->
  get_label_indices n sample_label draw = Ok (good ++ tail) ->
  Forall (fun c => c < n) good ->
  (forall bad, head tail = Some bad -> n <= bad) ->
  exists f,
    fixed_label = Some f
    /\ (convertible (image_indices ++ map Z.of_nat (good ++ tail)) ->
        sample_image_label sample_label draw moving_image fixed_image
          (Some m) fixed_label image_indices
        = (map (channel_record moving_image fixed_image m f image_indices)
             good,
           stopped_by tail IndexError))
    /\ (~ convertible image_indices -> good ++ tail <> [] ->
        sample_image_label sample_label draw moving_image fixed_image
          (Some m) fixed_label image_indices
        = ([], Some OverflowError))
    /\ forall c, c ∈ good ->
         index_last m c = Ok (slice_or_self m c)
         /\ index_last f c = Ok (slice_or_self f c).
Proof.
  intros Hret Hdim Hn Hwm Hwf Hindices Hgood Hbad.
  destruct (validate_returns_images _ _ _ _ _ Hret)
    as (mi & fi & -> & -> & _ & _ & Hboth).
  destruct fixed_label as [f|]; [|discriminate].
  specialize (Hwf f eq_refl).
  destruct (validated_channels _ _ _ _ _ _ Hret Hwm Hwf Hdim Hn)
    as [Hpos Hslices].
  rewrite Forall_forall in Hgood.
  exists f. split; [reflexivity|].
  destruct Hret as [ws Hws].
  split; [|split]; cycle 2.
  { intros c Hc. apply Hslices. by apply Hgood. }
  - intros Hconv. apply convertible_app in Hconv as [Hconv Hfits].
    assert (Hfit : forall c, c ∈ good ++ tail ->
                             fits_float (Z.of_nat c) = true).
    { intros c Hc. unfold convertible in Hfits.
      rewrite forallb_forall in Hfits. apply Hfits.
      apply list_elem_of_In, list_elem_of_fmap. by exists c. }
    unfold sample_image_label. rewrite Hws, Hdim, Hn. simpl.
    rewrite Hindices.
    assert (Hbody : forall c, c ∈ good ->
              (let* indices := indices_of image_indices (Z.of_nat c) in
               let* m0 := index_last m c in
               let* f0 := channel (Some f) c in
               Ok (labeled_sample (Some mi) (Some fi) indices
                     (VArray m0) (VArray f0)))
              = Ok (channel_record (Some mi) (Some fi) m f image_indices c)).
    { intros c Hc. destruct (Hslices c (Hgood c Hc)) as [Hm Hf].
      rewrite indices_of_convertible;
        [|exact Hconv|apply Hfit, elem_of_app; by left].
      simpl. by rewrite Hm, Hf. }
    destruct tail as [|bad rest].
    + rewrite app_nil_r. simpl. by apply yield_each_ok.
    + simpl. apply yield_each_stops; [exact Hbody|].
      specialize (Hbad bad eq_refl).
      rewrite indices_of_convertible;
        [|exact Hconv|apply Hfit, elem_of_app; right; apply list_elem_of_here].
      simpl. unfold index_last. rewrite (last_of_four _ _ Hdim Hn).
      destruct (Nat.ltb_spec bad n); [lia|reflexivity].
  - intros Hover Hsome.
    unfold sample_image_label. rewrite Hws, Hdim, Hn. simpl.
    rewrite Hindices.
    destruct (good ++ tail) as [|c rest]; [done|].
    simpl. by rewrite indices_of_overflow.
Qed.

Lemma sample_image_label_follows_label_indices_witness :
  (exists f,
    Some two_channel_label = Some f
    /\ (convertible ([7%Z] ++ map Z.of_nat ([0; 1] ++ [])) ->
        sample_image_label (Some SampleAll) 0 (Some black_voxel)
          (Some white_voxel) (Some two_channel_label)
          (Some two_channel_label) [7%Z]
        = (map (channel_record (Some black_voxel) (Some white_voxel)
                  two_channel_label f [7%Z]) [0; 1],
           stopped_by (@nil nat) IndexError))
    /\ (~ convertible [7%Z] -> [0; 1] ++ [] <> [] ->
        sample_image_label (Some SampleAll) 0 (Some black_voxel)
          (Some white_voxel) (Some two_channel_label)
          (Some two_channel_label) [7%Z]
        = ([], Some OverflowError))
    /\ forall c, c ∈ [0; 1] ->
         index_last two_channel_label c
         = Ok (slice_or_self two_channel_label c)
         /\ index_last f c = Ok (slice_or_self f c))
  /\ (exists f,
    Some two_channel_label = Some f
    /\ (convertible ([7%Z] ++ map Z.of_nat ([] ++ [5])) ->
        sample_image_label (Some (SampleChannel 5)) 0 (Some black_voxel)
          (Some white_voxel) (Some two_channel_label)
          (Some two_channel_label) [7%Z]
        = (map (channel_record (Some black_voxel) (Some white_voxel)
                  two_channel_label f [7%Z]) [],
           stopped_by [5] IndexError))
    /\ (~ convertible [7%Z] -> [] ++ [5] <> [] ->
        sample_image_label (Some (SampleChannel 5)) 0 (Some black_voxel)
          (Some white_voxel) (Some two_channel_label)
          (Some two_channel_label) [7%Z]
        = ([], Some OverflowError))
    /\ forall c, c ∈ @nil nat ->
         index_last two_channel_label c
         = Ok (slice_or_self two_channel_label c)
         /\ index_last f c = Ok (slice_or_self f c)).
Proof.
  split.
  - apply (sample_image_label_follows_label_indices (Some SampleAll) 0
             (Some black_voxel) (Some white_voxel) (Some two_channel_label)
             two_channel_label [7%Z] 2 [0; 1] []).
    + exists []. vm_compute. reflexivity.
    + reflexivity.
    + reflexivity.
    + reflexivity.
    + intros f Hf. injection Hf as <-. reflexivity.
    + reflexivity.
    + repeat constructor.
    + intros bad Hbad. discriminate Hbad.
  - apply (sample_image_label_follows_label_indices (Some (SampleChannel 5)) 0
             (Some black_voxel) (Some white_voxel) (Some two_channel_label)
             two_channel_label [7%Z] 2 [] [5]).
    + exists []. vm_compute. reflexivity.
    + reflexivity.
    + reflexivity.
    + reflexivity.
    + intros f Hf. injection Hf as <-. reflexivity.
    + reflexivity.
    + constructor.
    + intros bad Hbad. injection Hbad as <-. lia.
Defined.

(** The records of the two channels, and the generator stopped by a
    selected channel that the label does not have. *)
Example two_channels_then_index_error :
  sample_image_label (Some SampleAll) 0 (Some black_voxel) (Some white_voxel)
    (Some two_channel_label) (Some two_channel_label) [7%Z]
  = (map (channel_record (Some black_voxel) (Some white_voxel)
            two_channel_label two_channel_label [7%Z]) [0; 1], None)
  /\ sample_image_label (Some (SampleChannel 5)) 0 (Some black_voxel)
       (Some white_voxel) (Some two_channel_label) (Some two_channel_label)
       [7%Z]
     = ([], Some IndexError).
Proof. vm_compute. by split. Qed.
(** ** data_generator on well-behaved and on faulty backends *)

Lemma validate_unlabeled_ok (mi fi : ndarray) (image_indices : list Z) :
  ndim mi = 3 -> ndim fi = 3 ->
  ~ zero_size mi -> ~ fails_range_check mi ->
  ~ zero_size fi -> ~ fails_range_check fi ->
  validate_images_and_labels (Some mi) (Some fi) None None image_indices
  = Ok [].
Proof.
  intros Hdm Hdf Hzm Hom Hzf Hof.
  unfold validate_images_and_labels. cbn [is_none eqb negb for_each bind].
  rewrite (proj2 (check_range_ok mi "moving_image")) by done.
  rewrite (proj2 (check_range_ok fi "fixed_image")) by done.
  rewrite !check_range_None. cbn [bind].
  unfold check_image_dim. cbn [fst snd]. by rewrite Hdm, Hdf.
Qed.

Lemma raw_image_scaled (a : ndarray) :
  raw_image_ok a ->
  ndim (div255 a) = 3 /\ ~ zero_size (div255 a)
  /\ ~ fails_range_check (div255 a).
Proof.
  intros (Hd & Hz & Hr). split; [exact Hd|]. split; [|exact Hr].
  unfold zero_size in *. simpl. intros Hnil.
  apply Hz. by apply fmap_nil_inv in Hnil.
Qed.

Lemma for_yield_from_at_singletons {A B : Type}
    (inner : nat -> A -> generator B) (g : A -> B) (xs : list A) (pos : nat)
    (tail_exn : option exn) :
  (forall k x, xs !! k = Some x -> inner (pos + k) x = ([g x], None)) ->
  for_yield_from_at inner pos xs tail_exn = (map g xs, tail_exn).
Proof.
  revert pos. induction xs as [|x xs IH]; intros pos Hinner; [reflexivity|].
  simpl. pose proof (Hinner 0 x eq_refl) as H0.
  rewrite Nat.add_0_r in H0. rewrite H0.
  rewrite IH; [reflexivity|].
  intros k y Hk. rewrite Nat.add_succ_l, <- Nat.add_succ_r.
  by apply Hinner.
Qed.

(** X5: An unlabeled loader whose image backends deliver, for every index
    tuple, 3-D non-empty images that pass the range check once divided by
    255, and whose image indices convert to floats, yields exactly one
    record per index tuple, in order: the two images divided by 255, the
    binary32 vector of the image indices followed by -1, and no label.  The
    generator ends as the index generator does. *)
Theorem data_generator_unlabeled_one_record_per_tuple
    (self : GeneratorDataLoader) (ts : list index_tuple)
    (tail_exn : option exn) :
  truthy (labeled (base self)) = false ->
  sample_index_generator self = (ts, tail_exn) ->
  (forall t, t ∈ ts ->
     convertible t.2
     /\ exists raw_m raw_f,
          fetch (loader_moving_image self) t.1.1 = Ok raw_m
          /\ fetch (loader_fixed_image self) t.1.2 = Ok raw_f
          /\ raw_image_ok raw_m /\ raw_image_ok raw_f) ->
  data_generator self = (map (unlabeled_record self) ts, tail_exn)
  /\ forall t, t ∈ ts ->
       unlabeled_record self t !! "indices"
       = Some (float32_indices t.2 (-1))
       /\ unlabeled_record self t !! "moving_label" = None
       /\ unlabeled_record self t !! "fixed_label" = None.
Proof.
  intros Hunlabeled Hsig Hbackends. split; [|by intros t _].
  unfold data_generator. rewrite Hsig. unfold yielded, raised. simpl.
  apply for_yield_from_at_singletons. intros k t Hk. simpl.
  destruct (Hbackends t)
    as (Hconv & raw_m & raw_f & Hm & Hf & Hokm & Hokf);
    [by eapply list_elem_of_lookup_2|].
  unfold data_generator_body, unlabeled_record, fetched.
  destruct t as [[mx fx] ii]. unfold load_tuple. simpl in *.
  rewrite Hm, Hf, Hunlabeled. simpl.
  destruct (raw_image_scaled raw_m Hokm) as (Hdm & Hzm & Hom).
  destruct (raw_image_scaled raw_f Hokf) as (Hdf & Hzf & Hof).
  unfold sample_image_label.
  rewrite (validate_unlabeled_ok _ _ ii Hdm Hdf Hzm Hom Hzf Hof).
  by rewrite indices_of_convertible.
Qed.

Lemma data_generator_unlabeled_one_record_per_tuple_witness :
  data_generator three_pairs
  = (map (unlabeled_record three_pairs)
       [(Index 0, Index 0, [0%Z]); (Index 1, Index 1, [1%Z]);
        (Index 2, Index 2, [2%Z])], None)
  /\ forall t,
       t ∈ [(Index 0, Index 0, [0%Z]); (Index 1, Index 1, [1%Z]);
            (Index 2, Index 2, [2%Z])] ->
       unlabeled_record three_pairs t !! "indices"
       = Some (float32_indices t.2 (-1))
       /\ unlabeled_record three_pairs t !! "moving_label" = None
       /\ unlabeled_record three_pairs t !! "fixed_label" = None.
Proof.
  apply (data_generator_unlabeled_one_record_per_tuple three_pairs
           [(Index 0, Index 0, [0%Z]); (Index 1, Index 1, [1%Z]);
            (Index 2, Index 2, [2%Z])] None).
  - reflexivity.
  - reflexivity.
  - intros t Ht. split.
    + rewrite !elem_of_cons, elem_of_nil in Ht.
      destruct Ht as [->|[->|[->|[]]]]; reflexivity.
    + exists full_voxel, full_voxel.
      split; [reflexivity|]. split; [reflexivity|].
      assert (Hok : raw_image_ok full_voxel).
      { split; [reflexivity|]. split; [discriminate|].
        intros [_ Hout]. revert Hout. unfold out_of_range. simpl.
        rewrite Exists_cons, Exists_nil.
        intros H; decompose [or] H; first [discriminate | contradiction]. }
      by split.
Defined.

Lemma for_yield_from_at_abort {A B : Type} (inner : nat -> A -> generator B)
    (before : list A) (x : A) (after : list A) (pos : nat)
    (tail_exn : option exn) (e : exn) :
  (forall k y, before !! k = Some y -> snd (inner (pos + k) y) = None) ->
  snd (inner (pos + length before) x) = Some e ->
  for_yield_from_at inner pos (before ++ x :: after) tail_exn
  = (concat (imap (fun k y => fst (inner (pos + k) y)) before)
     ++ fst (inner (pos + length before) x), Some e).
Proof.
  revert pos. induction before as [|y before IH]; intros pos Hbefore Hx; simpl.
  - rewrite Nat.add_0_r in *. destruct (inner pos x) as [ys [e'|]];
      simpl in *; [|discriminate]. by injection Hx as ->.
  - pose proof (Hbefore 0 y eq_refl) as H0. rewrite Nat.add_0_r in *.
    destruct (inner pos y) as [ys [e'|]]; simpl in *; [discriminate|].
    rewrite (IH (S pos)); cycle 1.
    { intros k z Hk. rewrite Nat.add_succ_l, <- Nat.add_succ_r.
      by apply Hbefore. }
    { by rewrite Nat.add_succ_l, <- Nat.add_succ_r. }
    simpl. rewrite <- app_assoc.
    rewrite <- Nat.add_succ_r.
    rewrite (imap_ext _ ((fun k y0 => (inner (pos + k) y0).1) ∘ S) before);
      [reflexivity|].
    intros k z _. simpl. by rewrite Nat.add_succ_r.
Qed.

(** X6: [data_generator] stops at the first index tuple whose treatment
    raises: it has yielded the records of the tuples before it and what the
    failing tuple yielded before raising, it ends with that exception, and
    the tuples after it (and the way the index generator would have ended)
    play no part. *)
Theorem data_generator_stops_at_first_failure
    (self : GeneratorDataLoader) (before : list index_tuple)
    (t : index_tuple) (after : list index_tuple) (e : exn) :
  yielded (sample_index_generator self) = before ++ t :: after ->
  (forall k t', before !! k = Some t' ->
                raised (data_generator_body self k t') = None) ->
  raised (data_generator_body self (length before) t) = Some e ->
  data_generator self
  = (concat (imap (fun k t' => yielded (data_generator_body self k t')) before)
     ++ yielded (data_generator_body self (length before) t), Some e).
Proof.
  intros Hsig Hbefore Ht. unfold data_generator. rewrite Hsig.
  by apply (for_yield_from_at_abort (data_generator_body self) before t
              after 0).
Qed.

Lemma data_generator_stops_at_first_failure_witness :
  data_generator three_pairs_one_faulty
  = (concat (imap (fun k t' =>
                     yielded (data_generator_body three_pairs_one_faulty k t'))
               [(Index 0, Index 0, [0%Z])])
     ++ yielded (data_generator_body three_pairs_one_faulty
                   (length [(Index 0, Index 0, [0%Z])])
                   (Index 1, Index 1, [1%Z])),
     Some (ValueError (OutOfRange "moving_image"))).
Proof.
  apply (data_generator_stops_at_first_failure three_pairs_one_faulty
           [(Index 0, Index 0, [0%Z])] (Index 1, Index 1, [1%Z])
           [(Index 2, Index 2, [2%Z])]).
  - reflexivity.
  - intros [|k] t' Hk; [|discriminate]. injection Hk as <-.
    vm_compute. reflexivity.
  - vm_compute. reflexivity.
Defined.

Example faulty_backend_yields_one_record :
  yielded (data_generator three_pairs_one_faulty)
  = [unlabeled_record three_pairs_one_faulty (Index 0, Index 0, [0%Z])]
  /\ raised (data_generator three_pairs_one_faulty)
     = Some (ValueError (OutOfRange "moving_image")).
Proof. vm_compute. by split. Qed.

Lemma check_range_out (a : ndarray) (name : string) :
  ~ zero_size a -> fails_range_check a ->
  check_range (Some a, name) = Raise (ValueError (OutOfRange name)).
Proof.
  intros Hz Ho.
  destruct (check_range (Some a, name)) as [[]|e] eqn:E.
  - apply check_range_ok in E. tauto.
  - revert E. unfold check_range, np_min, np_max, zero_size in *. simpl.
    destruct (data a) as [|x xs]; [done|]. simpl.
    destruct (float_lt _ f_zero); [congruence|].
    destruct (float_lt f_one _); congruence.
Qed.

(** X7: The division by 255 is not clamped: when everything was fetched for
    an index tuple and the moving image, once divided by 255, holds no NaN
    and a value below 0 or above 1, the tuple yields no record and
    [data_generator] raises the [ValueError] of the range check on
    ["moving_image"]. *)
Theorem data_generator_rejects_intensities_outside_0_255
    (self : GeneratorDataLoader) (pos : nat) (t : index_tuple)
    (raw : ndarray) :
  returns (load_tuple self t) ->
  fetch (loader_moving_image self) t.1.1 = Ok raw ->
  ~ zero_size raw ->
  fails_range_check (div255 raw) ->
  data_generator_body self pos t
  = ([], Some (ValueError (OutOfRange "moving_image"))).
Proof.
  intros [[[[mi fi] ml] fl] Hload] Hraw Hz Hbad.
  unfold data_generator_body. rewrite Hload.
  apply load_tuple_inv in Hload
    as (raw_m & raw_f & Hm & Hf & -> & -> & Hlabels).
  rewrite Hraw in Hm. injection Hm as <-.
  assert (Hboth : is_none ml = is_none fl).
  { unfold labels_as_configured in Hlabels.
    destruct (truthy _).
    - by destruct Hlabels as (lm & lf & _ & _ & -> & ->).
    - by destruct Hlabels as [-> ->]. }
  unfold sample_image_label, validate_images_and_labels.
  rewrite Hboth. replace (negb (eqb (is_none fl) (is_none fl))) with false
    by (by destruct (is_none fl)).
  cbn [for_each bind].
  rewrite check_range_out; [reflexivity| |exact Hbad].
  unfold zero_size in *. simpl. intros Hnil. apply Hz.
  by apply fmap_nil_inv in Hnil.
Qed.

Lemma data_generator_rejects_intensities_outside_0_255_witness :
  data_generator_body three_pairs_one_faulty 1 (Index 1, Index 1, [1%Z])
  = ([], Some (ValueError (OutOfRange "moving_image"))).
Proof.
  apply (data_generator_rejects_intensities_outside_0_255
           three_pairs_one_faulty 1 (Index 1, Index 1, [1%Z])
           overexposed_voxel).
  - eexists. vm_compute. reflexivity.
  - reflexivity.
  - discriminate.
  - split.
    + unfold has_nan. simpl. rewrite list_elem_of_singleton. discriminate.
    + apply Exists_cons_hd. right. vm_compute. reflexivity.
Defined.

(** The smallest negative intensity divided by 255 is the negative zero,
    which is not below 0: the image passes the range check. *)
Example faint_negative_voxel_passes :
  data (div255 faint_negative_voxel) = [S754_zero true]
  /\ validate_images_and_labels (Some (div255 faint_negative_voxel))
       (Some (div255 full_voxel)) None None [0%Z] = Ok [].
Proof. vm_compute. by split. Qed.

(** ** ConcatenatedDataLoader: datasets, shapes, closing, counts *)

Lemma ds_concatenate_finite {A : Type} (d : Dataset A) (acc l : list A) :
  (forall epoch n, d epoch n = take n acc) ->
  forall epoch n, ds_concatenate d (from_list l) epoch n = take n (acc ++ l).
Proof.
  intros Hd epoch n. unfold ds_concatenate, from_list.
  rewrite Hd, take_app, length_take.
  destruct (Nat.le_gt_cases n (length acc)) as [Hle|Hgt].
  - replace (n - n `min` length acc) with 0 by lia.
    by replace (n - length acc) with 0 by lia.
  - by replace (n `min` length acc) with (length acc) by lia.
Qed.

Lemma concatenate_rest_finite `{DataLoaderInterface L} (rest : list L)
    (lists : list (list sample)) (d : Dataset sample) (acc : list sample) :
  (forall epoch n, d epoch n = take n acc) ->
  Forall2 (fun loader l => get_dataset loader = Ok (from_list l)) rest lists ->
  exists d', concatenate_rest d rest = Ok d'
             /\ forall epoch n, d' epoch n = take n (acc ++ concat lists).
Proof.
  intros Hd Hrest. revert d acc Hd.
  induction Hrest as [|loader l rest lists Hl _ IH]; intros d acc Hd.
  - exists d. split; [reflexivity|]. intros epoch n.
    simpl. by rewrite app_nil_r.
  - simpl. rewrite Hl. cbn [bind].
    destruct (IH (ds_concatenate d (from_list l)) (acc ++ l))
      as (d' & Hd' & Htake).
    { by apply ds_concatenate_finite. }
    exists d'. split; [exact Hd'|]. intros epoch n.
    by rewrite Htake, <- app_assoc.
Qed.

(** X8: The dataset of a [ConcatenatedDataLoader] over children with finite
    datasets is their concatenation, child after child in the order of the
    list: the first [n] elements of a traversal are the first [n] elements
    of the children's samples put end to end. *)
Theorem concatenated_get_dataset_chains_children `{DataLoaderInterface L}
    (data_loaders : list L) (lists : list (list sample))
    (self : ConcatenatedDataLoader L) :
  ConcatenatedDataLoader_init data_loaders = Ok self ->
  Forall2 (fun loader l => get_dataset loader = Ok (from_list l))
    data_loaders lists ->
  exists d, get_dataset self = Ok d
            /\ forall epoch n, d epoch n = take n (concat lists).
Proof.
  intros Hinit Hchildren. unfold ConcatenatedDataLoader_init in Hinit.
  destruct Hchildren as [|loader l rest lists Hl Hrest]; [discriminate|].
  simpl in Hinit. injection Hinit as <-.
  cbn [get_dataset ConcatenatedDataLoader_interface loaders].
  rewrite Hl. cbn [bind].
  destruct (concatenate_rest_finite rest lists (from_list l) l)
    as (d & Hd & Htake); [done|done|].
  by exists d.
Qed.

Lemma concatenated_get_dataset_chains_children_witness :
  exists d,
    get_dataset
      {| concatenated_base := DataLoader_init None None None None;
         loaders := [three_pairs_loader; three_pairs_loader] |} = Ok d
    /\ forall epoch n,
         d epoch n
         = take n (concat [three_records; three_records]).
Proof.
  apply (concatenated_get_dataset_chains_children
           [three_pairs_loader; three_pairs_loader]
           [three_records; three_records]).
  - reflexivity.
  - repeat constructor.
Defined.

(** X9: A constructed [ConcatenatedDataLoader] has a first child and reports
    that child's shapes as its own; the shapes of the other children are
    never looked at. *)
Theorem concatenated_shapes_are_first_childs `{DataLoaderInterface L}
    (data_loaders : list L) (self : ConcatenatedDataLoader L) :
  ConcatenatedDataLoader_init data_loaders = Ok self ->
  exists first others,
    data_loaders = first :: others
    /\ moving_image_shape self = moving_image_shape first
    /\ fixed_image_shape self = fixed_image_shape first
    /\ forall others',
         moving_image_shape
           {| concatenated_base := concatenated_base self;
              loaders := first :: others' |}
         = moving_image_shape self
         /\ fixed_image_shape
              {| concatenated_base := concatenated_base self;
                 loaders := first :: others' |}
            = fixed_image_shape self.
Proof.
  unfold ConcatenatedDataLoader_init.
  destruct data_loaders as [|first others]; [discriminate|].
  simpl. intros [= <-]. exists first, others. by repeat split.
Qed.

Lemma concatenated_shapes_are_first_childs_witness :
  exists first others,
    [unpaired_of_shape [4; 4; 4]%Z; unpaired_of_shape [8; 8; 2]%Z]
    = first :: others
    /\ moving_image_shape
         {| concatenated_base := DataLoader_init None None None None;
            loaders := [unpaired_of_shape [4; 4; 4]%Z;
                        unpaired_of_shape [8; 8; 2]%Z] |}
       = moving_image_shape first
    /\ fixed_image_shape
         {| concatenated_base := DataLoader_init None None None None;
            loaders := [unpaired_of_shape [4; 4; 4]%Z;
                        unpaired_of_shape [8; 8; 2]%Z] |}
       = fixed_image_shape first
    /\ forall others',
         moving_image_shape
           {| concatenated_base := DataLoader_init None None None None;
              loaders := first :: others' |}
         = moving_image_shape
             {| concatenated_base := DataLoader_init None None None None;
                loaders := [unpaired_of_shape [4; 4; 4]%Z;
                            unpaired_of_shape [8; 8; 2]%Z] |}
         /\ fixed_image_shape
              {| concatenated_base := DataLoader_init None None None None;
                 loaders := first :: others' |}
            = fixed_image_shape
                {| concatenated_base := DataLoader_init None None None None;
                   loaders := [unpaired_of_shape [4; 4; 4]%Z;
                               unpaired_of_shape [8; 8; 2]%Z] |}.
Proof.
  apply (concatenated_shapes_are_first_childs
           [unpaired_of_shape [4; 4; 4]%Z; unpaired_of_shape [8; 8; 2]%Z]).
  reflexivity.
Defined.

Example concatenation_of_unequal_shapes_reports_the_first :
  moving_image_shape
    {| concatenated_base := DataLoader_init None None None None;
       loaders := [unpaired_of_shape [4; 4; 4]%Z;
                   unpaired_of_shape [8; 8; 2]%Z] |}
  = Ok [4; 4; 4]%Z.
Proof. reflexivity. Qed.

Lemma comprehension_identity {A : Type} (body : A -> result A) (xs : list A) :
  Forall (fun x => body x = Ok x) xs -> comprehension body xs = Ok xs.
Proof.
  intros Hall. rewrite (comprehension_ok_map body id).
  - by rewrite map_id.
  - rewrite Forall_forall in Hall. exact Hall.
Qed.

(** X10: [close] on a [ConcatenatedDataLoader] closes every child, in order,
    and keeps what each call leaves; over children whose [close] changes
    nothing (all the loaders of this module) it changes nothing either, so
    that it can be called any number of times. *)
Theorem concatenated_close_closes_every_child `{DataLoaderInterface L}
    (self : ConcatenatedDataLoader L) (closed : list L) :
  Forall2 (fun l l' => close l = Ok l') (loaders self) closed ->
  close self
  = Ok {| concatenated_base := concatenated_base self; loaders := closed |}
  /\ (closed = loaders self ->
      forall n, after_calls self (replicate n CallClose) = self).
Proof.
  intros Hclosed.
  assert (Hclose : close self
            = Ok {| concatenated_base := concatenated_base self;
                    loaders := closed |}).
  { cbn [close ConcatenatedDataLoader_interface].
    by rewrite (proj2 (comprehension_Forall2 close (loaders self) closed)
                  Hclosed). }
  split; [exact Hclose|].
  intros -> n. unfold after_calls.
  induction n as [|n IH]; [reflexivity|].
  cbn [replicate foldl after_call]. rewrite Hclose.
  by destruct self.
Qed.

Lemma concatenated_close_closes_every_child_witness :
  close {| concatenated_base := DataLoader_init None None None None;
           loaders := [unpaired_of_size 10; unpaired_of_size 5] |}
  = Ok {| concatenated_base := DataLoader_init None None None None;
          loaders := [unpaired_of_size 10; unpaired_of_size 5] |}
  /\ ([unpaired_of_size 10; unpaired_of_size 5]
      = [unpaired_of_size 10; unpaired_of_size 5] ->
      forall n,
        after_calls
          {| concatenated_base := DataLoader_init None None None None;
             loaders := [unpaired_of_size 10; unpaired_of_size 5] |}
          (replicate n CallClose)
        = {| concatenated_base := DataLoader_init None None None None;
             loaders := [unpaired_of_size 10; unpaired_of_size 5] |}).
Proof.
  apply (concatenated_close_closes_every_child
           {| concatenated_base := DataLoader_init None None None None;
              loaders := [unpaired_of_size 10; unpaired_of_size 5] |}
           [unpaired_of_size 10; unpaired_of_size 5]).
  repeat constructor.
Defined.

Lemma py_sum_from_None (acc : Z) (counts : list (option Z)) :
  None ∈ counts -> py_sum_from acc counts = Raise TypeError.
Proof.
  revert acc. induction counts as [|c counts IH]; intros acc Hin.
  - by apply elem_of_nil in Hin.
  - destruct c as [n|]; [|reflexivity]. simpl. apply IH.
    apply elem_of_cons in Hin as [Hin|Hin]; [discriminate|exact Hin].
Qed.

(** X11: A loader constructed by [AbstractPairedDataLoader] or
    [AbstractUnpairedDataLoader] has no sample count yet ([num_samples] is
    [None] until a concrete loader sets it), and [num_samples] of a
    [ConcatenatedDataLoader] raises [TypeError] as soon as every child
    answers and one of the answers is [None]. *)
Theorem num_samples_unset_until_assigned
    (moving_shape fixed_shape shape3 : list Z)
    (labeled : option bool) (sample_label : option label_policy)
    (seed : option Z) :
  (forall self,
     AbstractPairedDataLoader_init moving_shape fixed_shape labeled
       sample_label seed = Ok self ->
     num_samples self = Ok None)
  /\ (forall self,
        AbstractUnpairedDataLoader_init shape3 labeled sample_label seed
        = Ok self ->
        num_samples self = Ok None)
  /\ (forall (L : Type) (I : DataLoaderInterface L)
             (self : ConcatenatedDataLoader L) (counts : list (option Z)),
        Forall2 (fun l c => num_samples l = Ok c) (loaders self) counts ->
        None ∈ counts ->
        num_samples self = Raise TypeError).
Proof.
  split; [|split].
  - unfold AbstractPairedDataLoader_init. intros self.
    destruct (_ || _); [discriminate|]. by intros [= <-].
  - unfold AbstractUnpairedDataLoader_init. intros self.
    destruct (negb _); [discriminate|]. by intros [= <-].
  - intros L I self counts Hcounts Hnone.
    cbn [num_samples ConcatenatedDataLoader_interface].
    rewrite (proj2 (comprehension_Forall2 num_samples (loaders self) counts)
               Hcounts).
    cbn [bind]. unfold py_sum. by rewrite py_sum_from_None.
Qed.

Example concatenation_of_fresh_loaders_cannot_count :
  forall p q,
    AbstractPairedDataLoader_init [8; 8; 4]%Z [8; 8; 4]%Z (Some true)
      (Some SampleAll) None = Ok p ->
    AbstractUnpairedDataLoader_init [8; 8; 4]%Z (Some true)
      (Some SampleAll) None = Ok q ->
    num_samples {| concatenated_base := DataLoader_init None None None None;
                   loaders := [p; p] |} = Raise TypeError
    /\ num_samples {| concatenated_base := DataLoader_init None None None None;
                      loaders := [q] |} = Raise TypeError.
Proof. intros p q [= <-] [= <-]. by split. Qed.

(** ** FileLoader: the group structure *)

Lemma comprehension_missing_key (self : FileLoader) (d : gmap Z (list Z))
    (ids : list Z) :
  group_sample_dict self = Some d ->
  (exists g, g ∈ ids /\ d !! g = None) ->
  comprehension (group_len self) ids = Raise KeyError.
Proof.
  intros Hd. induction ids as [|g ids IH]; intros (g' & Hin & Hmiss).
  - by apply elem_of_nil in Hin.
  - simpl. unfold group_len at 1. rewrite Hd.
    destruct (d !! g) as [samples|] eqn:Hg; [|reflexivity].
    cbn [bind]. rewrite IH; [reflexivity|].
    exists g'. split; [|exact Hmiss].
    apply elem_of_cons in Hin as [->|Hin]; [congruence|exact Hin].
Qed.

(** X12: How the two group methods of [FileLoader] fail: on a backend that is
    not grouped both raise [AssertionError]; on a grouped backend whose
    [group_ids] is still [None] both raise [TypeError]; with no group at
    all [get_num_images_per_group] raises the [ValueError] of [min] on an
    empty list; and with a group identifier that [group_sample_dict] does
    not know it raises [KeyError]. *)
Theorem group_methods_failures (self : FileLoader) :
  (grouped self = false ->
   get_num_groups self = Raise AssertionError
   /\ get_num_images_per_group self = Raise AssertionError)
  /\ (grouped self = true -> group_ids self = None ->
      get_num_groups self = Raise TypeError
      /\ get_num_images_per_group self = Raise TypeError)
  /\ (grouped self = true -> group_ids self = Some [] ->
      get_num_groups self = Ok 0
      /\ get_num_images_per_group self
         = Raise (ValueError MinEmptySequence))
  /\ (forall ids d,
        grouped self = true -> group_ids self = Some ids ->
        group_sample_dict self = Some d ->
        (exists g, g ∈ ids /\ d !! g = None) ->
        get_num_images_per_group self = Raise KeyError).
Proof.
  unfold get_num_groups, get_num_images_per_group, iterate_group_ids.
  split; [|split; [|split]].
  - by intros ->.
  - by intros -> ->.
  - by intros -> ->.
  - intros ids d -> -> Hd Hmiss. cbn [negb bind].
    by rewrite (comprehension_missing_key self d ids Hd Hmiss).
Qed.

(** X13: When [get_num_images_per_group] returns, [get_num_groups] returns
    too, and the list has one count per group. *)
Theorem group_counts_match_num_groups (self : FileLoader)
    (counts : list nat) :
  get_num_images_per_group self = Ok counts ->
  get_num_groups self = Ok (length counts) /\ 0 < length counts.
Proof.
  unfold get_num_images_per_group, get_num_groups, iterate_group_ids.
  destruct (grouped self); [|discriminate]. cbn [negb].
  destruct (group_ids self) as [ids|]; [|discriminate]. cbn [bind].
  destruct (comprehension (group_len self) ids) as [lens|] eqn:Hlens;
    [|discriminate].
  cbn [bind]. destruct (py_min lens) as [smallest|] eqn:Hmin; [|discriminate].
  cbn [bind]. destruct (smallest =? 0).
  { destruct (comprehension_if _ _); discriminate. }
  intros [= <-].
  apply comprehension_Forall2, Forall2_length in Hlens. rewrite Hlens.
  split; [reflexivity|].
  destruct lens; [discriminate|simpl; lia].
Qed.

Lemma group_counts_match_num_groups_witness :
  get_num_groups (grouped_backend [1%Z; 2%Z] groups_all_filled)
  = Ok (length [2; 1])
  /\ 0 < length [2; 1].
Proof.
  apply (group_counts_match_num_groups
           (grouped_backend [1%Z; 2%Z] groups_all_filled) [2; 1]).
  vm_compute. reflexivity.
Defined.

Lemma concatenated_total `{DataLoaderInterface L}
    (self : ConcatenatedDataLoader L) (counts : list Z) :
  Forall2 (fun l n => num_samples l = Ok (Some n)) (loaders self) counts ->
  num_samples self = Ok (Some (foldr Z.add 0%Z counts)).
Proof.
  intros Hcounts.
  cbn [num_samples ConcatenatedDataLoader_interface].
  assert (Hc : comprehension num_samples (loaders self)
               = Ok (map Some counts)).
  { apply comprehension_Forall2, Forall2_fmap_r.
    eapply Forall2_impl; [exact Hcounts|]. done. }
  rewrite Hc. cbn [bind]. unfold py_sum. rewrite py_sum_from_Some.
  cbn [bind]. by rewrite Z.add_0_l.
Qed.

Lemma foldr_add_app (xs ys : list Z) :
  foldr Z.add 0%Z (xs ++ ys)
  = (foldr Z.add 0%Z xs + foldr Z.add 0%Z ys)%Z.
Proof. induction xs as [|x xs IH]; simpl; lia. Qed.

(** X14: Concatenations nest: a [ConcatenatedDataLoader] whose children are
    themselves concatenations counts as many samples as the single
    concatenation of all the grandchildren. *)
Theorem concatenated_num_samples_nests `{DataLoaderInterface L}
    (groups : list (list L)) (counts : list (list Z))
    (base0 : DataLoader) :
  Forall2 (Forall2 (fun l n => num_samples l = Ok (Some n))) groups counts ->
  num_samples
    {| concatenated_base := base0;
       loaders := map (mk_ConcatenatedDataLoader base0) groups |}
  = Ok (Some (foldr Z.add 0%Z (concat counts)))
  /\ num_samples {| concatenated_base := base0; loaders := concat groups |}
     = Ok (Some (foldr Z.add 0%Z (concat counts))).
Proof.
  intros Hgroups. split.
  - rewrite (concatenated_total _ (map (foldr Z.add 0%Z) counts)).
    + do 2 f_equal. clear Hgroups.
      induction counts as [|c counts IH]; [reflexivity|].
      simpl. by rewrite foldr_add_app, IH.
    + simpl. apply Forall2_fmap. eapply Forall2_impl; [exact Hgroups|].
      intros group cs Hgroup. by apply concatenated_total.
  - apply concatenated_total. simpl.
    induction Hgroups as [|group cs groups counts Hgroup _ IH];
      [constructor|].
    simpl. by apply Forall2_app.
Qed.

Lemma concatenated_num_samples_nests_witness :
  num_samples
    {| concatenated_base := DataLoader_init None None None None;
       loaders := map (mk_ConcatenatedDataLoader
                         (DataLoader_init None None None None))
                    [[unpaired_of_size 10; unpaired_of_size 5];
                     [unpaired_of_size 3]] |}
  = Ok (Some (foldr Z.add 0%Z (concat [[10; 5]; [3]]%Z)))
  /\ num_samples
       {| concatenated_base := DataLoader_init None None None None;
          loaders := concat [[unpaired_of_size 10; unpaired_of_size 5];
                             [unpaired_of_size 3]] |}
     = Ok (Some (foldr Z.add 0%Z (concat [[10; 5]; [3]]%Z))).
Proof.
  apply (concatenated_num_samples_nests
           [[unpaired_of_size 10; unpaired_of_size 5]; [unpaired_of_size 3]]
           [[10; 5]; [3]]%Z).
  repeat constructor.
Defined.

(** ** Evaluation over a concatenation *)

Lemma chunks_keep_concat {A : Type} (b : nat) (xs : list A) :
  0 < b ->
  concat (chunks b false xs (length xs)) = xs
  /\ length (chunks b false xs (length xs))
     = length xs / b + (if length xs mod b =? 0 then 0 else 1).
Proof.
  intros Hb.
  destruct (chunks_drop_full b (length xs) xs Hb) as (_ & Hcount & Hcat);
    [done|].
  rewrite chunks_keep_or_drop by done.
  rewrite concat_app, length_app, Hcat, Hcount.
  destruct (Nat.eqb_spec (length xs mod b) 0) as [H0|Hne]; simpl.
  - split; [|done]. rewrite app_nil_r. apply take_ge.
    pose proof (Nat.div_mod_eq (length xs) b). lia.
  - split; [|done]. rewrite app_nil_r. apply take_drop.
Qed.

(** X15: Evaluation ([training = False], no [repeat]) over a
    [ConcatenatedDataLoader] with finite children loses no sample and keeps
    the order of the children: the batches, put end to end, are the resized
    samples of the first child, then of the second, and so on; a batch may
    hold the last samples of one child and the first of the next. *)
Theorem concatenated_evaluation_keeps_every_sample `{DataLoaderInterface L}
    (resize_inputs : sample -> list Z -> list Z -> sample)
    (affine_transform : list Z -> list Z -> Z -> list sample -> list sample)
    (rng : nat -> nat -> nat)
    (data_loaders : list L) (lists : list (list sample))
    (self : ConcatenatedDataLoader L) (ms fs : list Z)
    (batch_size shuffle_buffer_num_batch : Z) :
  ConcatenatedDataLoader_init data_loaders = Ok self ->
  Forall2 (fun loader l => get_dataset loader = Ok (from_list l))
    data_loaders lists ->
  moving_image_shape self = Ok ms ->
  fixed_image_shape self = Ok fs ->
  (0 < batch_size)%Z ->
  exists d,
    get_dataset_and_preprocess resize_inputs affine_transform rng self
      false batch_size false shuffle_buffer_num_batch = Ok d
    /\ forall epoch n,
         length (concat lists) <= n * Z.to_nat batch_size ->
         concat (d epoch n)
         = map (fun x => resize_inputs x ms fs) (concat lists)
         /\ length (d epoch n)
            = length (concat lists) / Z.to_nat batch_size
              + (if length (concat lists) mod Z.to_nat batch_size =? 0
                 then 0 else 1).
Proof.
  intros Hinit Hchildren Hmoving Hfixed Hbatch.
  assert (Hdataset : exists d0, get_dataset self = Ok d0
            /\ forall epoch n, d0 epoch n = take n (concat lists)).
  { unfold ConcatenatedDataLoader_init in Hinit.
    destruct Hchildren as [|loader l rest lists Hl Hrest]; [discriminate|].
    simpl in Hinit. injection Hinit as <-.
    cbn [get_dataset ConcatenatedDataLoader_interface loaders].
    rewrite Hl. cbn [bind].
    destruct (concatenate_rest_finite rest lists (from_list l) l)
      as (d0 & Hd0 & Htake); [done|done|].
    by exists d0. }
  destruct Hdataset as (d0 & Hd0 & Htake).
  unfold get_dataset_and_preprocess.
  rewrite Hd0, Hmoving, Hfixed. cbn [bind andb].
  unfold ds_batch. destruct (Z.leb_spec batch_size 0) as [|_]; [lia|].
  cbn [bind]. eexists. split; [reflexivity|].
  intros epoch n Hn. unfold ds_prefetch, ds_map.
  rewrite Htake, fmap_take.
  set (resized := map (fun x => resize_inputs x ms fs) (concat lists)).
  assert (Hlen : length resized = length (concat lists))
    by (unfold resized; by rewrite length_map).
  change ((fun x => resize_inputs x ms fs) <$> concat lists) with resized.
  rewrite (batch_of_finite (Z.to_nat batch_size) n false resized);
    [|lia|rewrite Hlen; exact Hn].
  rewrite <- Hlen. apply chunks_keep_concat. lia.
Qed.

Lemma concatenated_evaluation_keeps_every_sample_witness :
  exists d,
    get_dataset_and_preprocess keep_size keep_batch first_slot
      {| concatenated_base := DataLoader_init None None None None;
         loaders := [three_pairs_loader; three_pairs_loader] |}
      false 4 false 1 = Ok d
    /\ forall epoch n,
         length (concat [three_records; three_records])
         <= n * Z.to_nat 4 ->
         concat (d epoch n)
         = map (fun x => keep_size x [1; 1; 1]%Z [1; 1; 1]%Z)
             (concat [three_records; three_records])
         /\ length (d epoch n)
            = length (concat [three_records; three_records])
              / Z.to_nat 4
              + (if length (concat [three_records; three_records])
                    mod Z.to_nat 4 =? 0
                 then 0 else 1).
Proof.
  apply (concatenated_evaluation_keeps_every_sample keep_size keep_batch
           first_slot [three_pairs_loader; three_pairs_loader]
           [three_records; three_records]).
  - reflexivity.
  - repeat constructor.
  - reflexivity.
  - reflexivity.
  - lia.
Defined.

Example six_samples_of_two_children_in_batches_of_four :
  batch_sizes
    (get_dataset_and_preprocess keep_size keep_batch first_slot
       {| concatenated_base := DataLoader_init None None None None;
          loaders := [three_pairs_loader; three_pairs_loader] |}
       false 4 false 1) 5
  = Ok [4; 2].
Proof. vm_compute. reflexivity. Qed.
